(** * lithdat: a decoder for LithTech [.dat] world files

    A shallow embedding of [lithdat.go] (package [main]) and of the parts of
    the Go runtime it calls ([encoding/binary], [io], [os], [fmt]), followed by
    the properties of the decoder.

    Conventions of the embedding:
    - an unsigned w-bit integer is a [Z] in [0, 2^w);
    - a [float32] is carried as the IEEE-754 bit pattern of the value the
      program holds; the only float operation of the program is the
      conversion to [float64] and back that [encoding/binary] performs on
      the fields of a struct, see [math.Float32_via_Float64];
    - a Go [string] is a byte sequence; it is carried as a [String.string]
      built byte-for-byte with [string_of_list_byte];
    - a slice is a [list]; a fixed-size array is a [list] of that length;
    - the opened file is a regular file: its contents and its current
      offset;
    - what the program does to the outside world (reads and seeks on the
      file, lines written to standard output) is recorded as a chronological
      list of events. *)

From Stdlib Require Import String Ascii ZArith List Lia Bool.
From Stdlib.Strings Require Import Byte.
Import ListNotations.
Local Open Scope Z_scope.

(** ** Scalars *)

Definition uint8 := Z.
Definition uint16 := Z.
Definition uint32 := Z.
Definition int32 := Z.
Definition float32 := Z.

(** [uint8(b)] for a byte of the file. *)
Definition byte_val (b : byte) : uint8 := Z.of_N (Byte.to_N b).

(** ** The struct types of lithdat.go

    Every struct lives in a module of its name, so that fields keep the
    names of the source; [zero] is the Go zero value, [set_F] an assignment
    to field [F]. *)

Module SURFACE.
Record t := mk { Flags : uint32; TextureIndex : uint16; TextureFlags : uint16 }.
End SURFACE.

Module VEC2.
Record t := mk { X : float32; Y : float32 }.
End VEC2.

Module VEC3.
Record t := mk { X : float32; Y : float32; Z : float32 }.
Definition zero : t := mk 0 0 0.
End VEC3.

Module COLOR.
Record t := mk { R : float32; G : float32; B : float32 }.
Definition zero : t := mk 0 0 0.
End COLOR.

Module QUATERNION.
Record t := mk { X : float32; Y : float32; Z : float32; W : float32 }.
Definition zero : t := mk 0 0 0 0.
End QUATERNION.

Module TRIANGLE.
Record t := mk { T : list uint32; PolyIndex : uint32 }.
End TRIANGLE.

Module PLANE.
Record t := mk { Normal : VEC3.t; Dist : float32 }.
End PLANE.

Module VERTEX.
Record t := mk {
  VPos : VEC3.t; Uv0 : VEC2.t; Uv1 : VEC2.t; Color : int32;
  VNormal : VEC3.t; VTangent : VEC3.t; VBinormal : VEC3.t }.
End VERTEX.

Module POLYGON.
Record t := mk { Plane : PLANE.t; VertLen : uint32; VertPos : list VEC3.t }.
End POLYGON.

Module WMPOLYGON.
Record t := mk {
  SurfaceIndex : uint32; PlaneIndex : uint32; VerticesIndicies : list uint32 }.
End WMPOLYGON.

Module WMNODE.
Record t := mk { PolyIndex : uint32; Zero : uint32; NodeSidesIndicies : list int32 }.
End WMNODE.

Module WORLDMODEL.
Record t := mk {
  Dummy : uint32; WorldInfoFlags : uint32; WorldName : string;
  PointsLen : uint32; PlanesLen : uint32; SurfacesLen : uint32;
  Portals : uint32; PoliesLen : uint32; LeavesLen : uint32;
  PoliesVerticesLen : uint32; VisibleListLen : uint32; LeafList : uint32;
  NodesLen : uint32;
  WorldBBoxMin : VEC3.t; WorldBBoxMax : VEC3.t; WorldTranslation : VEC3.t;
  TextureNamesSize : uint32; TextureNamesLen : uint32;
  TextureNames : list string;
  VerticesLen : list uint8; Planes : list PLANE.t;
  Surfaces : list SURFACE.t; Polies : list WMPOLYGON.t;
  Nodes : list WMNODE.t;
  Points : list VEC3.t;
  RootNodeIndex : int32; Sections : uint32 }.
End WORLDMODEL.

Module WORLDTREE.
Record t := mk {
  RootBBoxMin : VEC3.t; RootBBoxMax : VEC3.t;
  SubNodesLen : uint32; TerrainDepth : uint32;
  WorldLayout : list uint8;
  WorldModelsLen : uint32; WorldModels : list WORLDMODEL.t }.
Definition zero : t := mk VEC3.zero VEC3.zero 0 0 [] 0 [].
End WORLDTREE.

Module PROPERTY.
Record t := mk {
  Name : string;
  DataTypeFlag : uint8;
  PropertyFlags : uint32;
  DataSize : uint16;
  DataString : string;
  DataVEC3 : VEC3.t;
  DataCOLOR : COLOR.t;
  DataFloat : float32;
  DataBool : bool;
  DataUint32 : uint32;
  DataQuaternion : QUATERNION.t;
  Data : list byte }.
Definition zero : t :=
  mk EmptyString 0 0 0 EmptyString VEC3.zero COLOR.zero 0 false 0
     QUATERNION.zero [].
Definition set_Name v (p : t) :=
  mk v (DataTypeFlag p) (PropertyFlags p) (DataSize p) (DataString p)
     (DataVEC3 p) (DataCOLOR p) (DataFloat p) (DataBool p) (DataUint32 p)
     (DataQuaternion p) (Data p).
Definition set_DataTypeFlag v (p : t) :=
  mk (Name p) v (PropertyFlags p) (DataSize p) (DataString p)
     (DataVEC3 p) (DataCOLOR p) (DataFloat p) (DataBool p) (DataUint32 p)
     (DataQuaternion p) (Data p).
Definition set_PropertyFlags v (p : t) :=
  mk (Name p) (DataTypeFlag p) v (DataSize p) (DataString p)
     (DataVEC3 p) (DataCOLOR p) (DataFloat p) (DataBool p) (DataUint32 p)
     (DataQuaternion p) (Data p).
Definition set_DataSize v (p : t) :=
  mk (Name p) (DataTypeFlag p) (PropertyFlags p) v (DataString p)
     (DataVEC3 p) (DataCOLOR p) (DataFloat p) (DataBool p) (DataUint32 p)
     (DataQuaternion p) (Data p).
Definition set_DataString v (p : t) :=
  mk (Name p) (DataTypeFlag p) (PropertyFlags p) (DataSize p) v
     (DataVEC3 p) (DataCOLOR p) (DataFloat p) (DataBool p) (DataUint32 p)
     (DataQuaternion p) (Data p).
Definition set_DataVEC3 v (p : t) :=
  mk (Name p) (DataTypeFlag p) (PropertyFlags p) (DataSize p) (DataString p)
     v (DataCOLOR p) (DataFloat p) (DataBool p) (DataUint32 p)
     (DataQuaternion p) (Data p).
Definition set_DataCOLOR v (p : t) :=
  mk (Name p) (DataTypeFlag p) (PropertyFlags p) (DataSize p) (DataString p)
     (DataVEC3 p) v (DataFloat p) (DataBool p) (DataUint32 p)
     (DataQuaternion p) (Data p).
Definition set_DataFloat v (p : t) :=
  mk (Name p) (DataTypeFlag p) (PropertyFlags p) (DataSize p) (DataString p)
     (DataVEC3 p) (DataCOLOR p) v (DataBool p) (DataUint32 p)
     (DataQuaternion p) (Data p).
Definition set_DataBool v (p : t) :=
  mk (Name p) (DataTypeFlag p) (PropertyFlags p) (DataSize p) (DataString p)
     (DataVEC3 p) (DataCOLOR p) (DataFloat p) v (DataUint32 p)
     (DataQuaternion p) (Data p).
Definition set_DataUint32 v (p : t) :=
  mk (Name p) (DataTypeFlag p) (PropertyFlags p) (DataSize p) (DataString p)
     (DataVEC3 p) (DataCOLOR p) (DataFloat p) (DataBool p) v
     (DataQuaternion p) (Data p).
Definition set_DataQuaternion v (p : t) :=
  mk (Name p) (DataTypeFlag p) (PropertyFlags p) (DataSize p) (DataString p)
     (DataVEC3 p) (DataCOLOR p) (DataFloat p) (DataBool p) (DataUint32 p)
     v (Data p).
End PROPERTY.

Module WORLDOBJECT.
Record t := mk {
  ObjectSize : uint16;
  ObjectType : string;
  PropertiesLen : uint32;
  Properties : list PROPERTY.t }.
Definition zero : t := mk 0 EmptyString 0 [].
Definition set_ObjectSize v (o : t) :=
  mk v (ObjectType o) (PropertiesLen o) (Properties o).
Definition set_ObjectType v (o : t) :=
  mk (ObjectSize o) v (PropertiesLen o) (Properties o).
Definition set_PropertiesLen v (o : t) :=
  mk (ObjectSize o) (ObjectType o) v (Properties o).
Definition set_Properties v (o : t) :=
  mk (ObjectSize o) (ObjectType o) (PropertiesLen o) v.
End WORLDOBJECT.

Module LIGHTGRID.
Record t := mk {
  LookupStart : VEC3.t; BlockSize : VEC3.t;
  LookupSize : list uint32;
  LgDataLen : uint32; LgData : list byte }.
Definition zero : t := mk VEC3.zero VEC3.zero [0; 0; 0] 0 [].
End LIGHTGRID.

Module VERTICESPOS.
Record t := mk { Len : uint8; Data : list VEC3.t }.
End VERTICESPOS.

Module SKYPORTAL.
Record t := mk { VerticesPos : VERTICESPOS.t; Plane : PLANE.t }.
End SKYPORTAL.

Module OCCLUDER.
Record t := mk { VerticesPos : VERTICESPOS.t; Plane : PLANE.t; Other : uint32 }.
End OCCLUDER.

Module SECTION.
Record t := mk {
  TextureName : list string; ShaderCode : uint8; TriangleCount : uint32;
  TextureEffect : string;
  LightMapWidth : uint32; LightMapHeight : uint32; LightMapSize : uint32;
  LightMapData : list byte }.
End SECTION.

Module SUBLM.
Record t := mk {
  Left : uint32; Top : uint32; Width : uint32; Height : uint32;
  DataLen : uint32; Data : list byte }.
End SUBLM.

Module SECTIONLM.
Record t := mk { SubLMLen : uint32; Sublm : list SUBLM.t }.
End SECTIONLM.

Module LIGHTGROUP.
Record t := mk {
  Name : string; VColor : VEC3.t;
  NIntensitySize : uint32; ZeroCompressedIntensityData : list byte;
  SectionLMLen : uint32; SectionLM : list SECTIONLM.t }.
End LIGHTGROUP.

Module RENDERNODE.
Record t := mk {
  VCenter : VEC3.t; VHalfDims : VEC3.t;
  SectionLen : uint32; Sections : list SECTION.t;
  VericesLen : uint32; Vertices : list VERTEX.t;
  TrianglesLen : uint32; Triangles : list TRIANGLE.t;
  SkyPortalLen : uint32; Skyportals : list SKYPORTAL.t;
  OccluderLen : uint32; Occluders : list OCCLUDER.t;
  LightGroupLen : uint32; LightGroups : list LIGHTGROUP.t;
  ChildFlags : uint8; ChildNodeIndicies : list uint32 }.
End RENDERNODE.

Module WMRENDERNODE.
Record t := mk {
  Name : string; NodesLen : uint32; Nodes : list RENDERNODE.t;
  NoChildFlag : uint32 }.
End WMRENDERNODE.

Module WORLDLIGHTGROUP.
Record t := mk {
  Name : string; Color : VEC3.t; VOffset : VEC3.t; VSize : VEC3.t;
  Data : list byte }.
End WORLDLIGHTGROUP.

Module RENDERDATA.
Record t := mk {
  RenderTreeNodesLen : uint32; RenderNodes : list RENDERNODE.t;
  WorldModelNodesLen : uint32; WorldModelRenderNotes : list WMRENDERNODE.t;
  LightGroupsLen : uint32; LightGroups : list WORLDLIGHTGROUP.t }.
Definition zero : t := mk 0 [] 0 [] 0 [].
End RENDERDATA.

Module HEADER.
Record t := mk {
  Version : uint32;
  ObjectDataPos : uint32;
  BlindObjectDataPos : uint32;
  LightgridPos : uint32;
  CollisionDataPos : uint32;
  ParticleBlockerDataPos : uint32;
  RenderDataPos : uint32;
  PackerType : uint32;
  PackerVersion : uint32;
  Future : list uint32 }.
Definition zero : t := mk 0 0 0 0 0 0 0 0 0 [0; 0; 0; 0; 0; 0].
Definition set_Version v (h : t) :=
  mk v (ObjectDataPos h) (BlindObjectDataPos h) (LightgridPos h)
     (CollisionDataPos h) (ParticleBlockerDataPos h) (RenderDataPos h)
     (PackerType h) (PackerVersion h) (Future h).
Definition set_ObjectDataPos v (h : t) :=
  mk (Version h) v (BlindObjectDataPos h) (LightgridPos h)
     (CollisionDataPos h) (ParticleBlockerDataPos h) (RenderDataPos h)
     (PackerType h) (PackerVersion h) (Future h).
Definition set_BlindObjectDataPos v (h : t) :=
  mk (Version h) (ObjectDataPos h) v (LightgridPos h)
     (CollisionDataPos h) (ParticleBlockerDataPos h) (RenderDataPos h)
     (PackerType h) (PackerVersion h) (Future h).
Definition set_LightgridPos v (h : t) :=
  mk (Version h) (ObjectDataPos h) (BlindObjectDataPos h) v
     (CollisionDataPos h) (ParticleBlockerDataPos h) (RenderDataPos h)
     (PackerType h) (PackerVersion h) (Future h).
Definition set_CollisionDataPos v (h : t) :=
  mk (Version h) (ObjectDataPos h) (BlindObjectDataPos h) (LightgridPos h)
     v (ParticleBlockerDataPos h) (RenderDataPos h)
     (PackerType h) (PackerVersion h) (Future h).
Definition set_ParticleBlockerDataPos v (h : t) :=
  mk (Version h) (ObjectDataPos h) (BlindObjectDataPos h) (LightgridPos h)
     (CollisionDataPos h) v (RenderDataPos h)
     (PackerType h) (PackerVersion h) (Future h).
Definition set_RenderDataPos v (h : t) :=
  mk (Version h) (ObjectDataPos h) (BlindObjectDataPos h) (LightgridPos h)
     (CollisionDataPos h) (ParticleBlockerDataPos h) v
     (PackerType h) (PackerVersion h) (Future h).
Definition set_PackerType v (h : t) :=
  mk (Version h) (ObjectDataPos h) (BlindObjectDataPos h) (LightgridPos h)
     (CollisionDataPos h) (ParticleBlockerDataPos h) (RenderDataPos h)
     v (PackerVersion h) (Future h).
Definition set_PackerVersion v (h : t) :=
  mk (Version h) (ObjectDataPos h) (BlindObjectDataPos h) (LightgridPos h)
     (CollisionDataPos h) (ParticleBlockerDataPos h) (RenderDataPos h)
     (PackerType h) v (Future h).
Definition set_Future v (h : t) :=
  mk (Version h) (ObjectDataPos h) (BlindObjectDataPos h) (LightgridPos h)
     (CollisionDataPos h) (ParticleBlockerDataPos h) (RenderDataPos h)
     (PackerType h) (PackerVersion h) v.
End HEADER.

Module BLINDOBJECTDATA.
Record t := mk { Len : uint32; DataID : uint32; Data : list byte }.
End BLINDOBJECTDATA.

Module WORLD.
Record t := mk {
  WorldInfoStrLen : uint32;
  WorldInfoStr : string;
  WorldExtentsMin : VEC3.t;
  WorldExtentsMax : VEC3.t;
  WorldOffset : VEC3.t;
  WorldTree : WORLDTREE.t;
  WorldObjectsLen : uint32;
  WorldObjects : list WORLDOBJECT.t;
  BlindObjectDataSize : uint32;
  BlindObjectsData : list BLINDOBJECTDATA.t;
  LightGrid : LIGHTGRID.t;
  PhysicsDataLen : uint32;
  Polies : list POLYGON.t;
  Zero : uint32;
  ParticleBlockerDataLen : uint32;
  ParticleBlockers : list POLYGON.t;
  Zero2 : uint32;
  RenderData : RENDERDATA.t }.
Definition zero : t :=
  mk 0 EmptyString VEC3.zero VEC3.zero VEC3.zero WORLDTREE.zero
     0 [] 0 [] LIGHTGRID.zero 0 [] 0 0 [] 0 RENDERDATA.zero.
Definition set_WorldObjectsLen v (w : t) :=
  mk (WorldInfoStrLen w) (WorldInfoStr w) (WorldExtentsMin w)
     (WorldExtentsMax w) (WorldOffset w) (WorldTree w)
     v (WorldObjects w) (BlindObjectDataSize w) (BlindObjectsData w)
     (LightGrid w) (PhysicsDataLen w) (Polies w) (Zero w)
     (ParticleBlockerDataLen w) (ParticleBlockers w) (Zero2 w) (RenderData w).
Definition set_WorldObjects v (w : t) :=
  mk (WorldInfoStrLen w) (WorldInfoStr w) (WorldExtentsMin w)
     (WorldExtentsMax w) (WorldOffset w) (WorldTree w)
     (WorldObjectsLen w) v (BlindObjectDataSize w) (BlindObjectsData w)
     (LightGrid w) (PhysicsDataLen w) (Polies w) (Zero w)
     (ParticleBlockerDataLen w) (ParticleBlockers w) (Zero2 w) (RenderData w).
Definition set_BlindObjectDataSize v (w : t) :=
  mk (WorldInfoStrLen w) (WorldInfoStr w) (WorldExtentsMin w)
     (WorldExtentsMax w) (WorldOffset w) (WorldTree w)
     (WorldObjectsLen w) (WorldObjects w) v (BlindObjectsData w)
     (LightGrid w) (PhysicsDataLen w) (Polies w) (Zero w)
     (ParticleBlockerDataLen w) (ParticleBlockers w) (Zero2 w) (RenderData w).
Definition set_PhysicsDataLen v (w : t) :=
  mk (WorldInfoStrLen w) (WorldInfoStr w) (WorldExtentsMin w)
     (WorldExtentsMax w) (WorldOffset w) (WorldTree w)
     (WorldObjectsLen w) (WorldObjects w) (BlindObjectDataSize w)
     (BlindObjectsData w)
     (LightGrid w) v (Polies w) (Zero w)
     (ParticleBlockerDataLen w) (ParticleBlockers w) (Zero2 w) (RenderData w).
Definition set_ParticleBlockerDataLen v (w : t) :=
  mk (WorldInfoStrLen w) (WorldInfoStr w) (WorldExtentsMin w)
     (WorldExtentsMax w) (WorldOffset w) (WorldTree w)
     (WorldObjectsLen w) (WorldObjects w) (BlindObjectDataSize w)
     (BlindObjectsData w)
     (LightGrid w) (PhysicsDataLen w) (Polies w) (Zero w)
     v (ParticleBlockers w) (Zero2 w) (RenderData w).
End WORLD.

(** ** The process: an open file, and the events it produces *)

(** The errors the runtime can hand to the program. *)
Inductive error := EOF | ErrUnexpectedEOF | EINVAL.

(** [*os.File] for a regular file opened read-only: the bytes on disk and the
    current offset of the descriptor. *)
Record File := mkFile { contents : list byte; offset : Z }.

(** Operands of the [fmt] calls, by dynamic type. *)
Inductive any :=
  | a_string (s : string)
  | a_uint32 (n : uint32)
  | a_HEADER (h : HEADER.t)
  | a_PROPERTY (p : PROPERTY.t)
  | a_error (e : error).

(** One [FileRead] per [io.ReadFull] that asks for at least one byte (bytes
    asked, bytes obtained), one [FileSeek] per [Seek], one [Println] or
    [Printf] per call of that function, with its operands; the rendering of
    the operands as text is left to [fmt]. *)
Inductive event :=
  | FileRead (want got : nat)
  | FileSeek (off : Z)
  | Println (a : list any)
  | Printf (format : string) (a : list any).

(** A computation on the open file: result, file afterwards, events in the
    order they happened. *)
Definition M (A : Type) : Type := File -> A * File * list event.

Definition ret {A} (a : A) : M A := fun f => (a, f, []).

Definition bind {A B} (m : M A) (k : A -> M B) : M B := fun f =>
  let '(a, f1, l1) := m f in
  let '(b, f2, l2) := k a f1 in
  (b, f2, l1 ++ l2).

Declare Scope go_scope.
Delimit Scope go_scope with go.
Notation "x <- c1 ;; c2" := (bind c1 (fun x => c2))
  (at level 61, c1 at next level, right associativity) : go_scope.
Notation "' pat <- c1 ;; c2" :=
  (bind c1 (fun x => match x with pat => c2 end))
  (at level 61, pat pattern, c1 at next level, right associativity) : go_scope.
Notation "c1 ;; c2" := (bind c1 (fun _ => c2))
  (at level 61, right associativity) : go_scope.
Local Open Scope go_scope.

Definition result {A} (r : A * File * list event) : A := fst (fst r).
Definition file_after {A} (r : A * File * list event) : File := snd (fst r).
Definition events {A} (r : A * File * list event) : list event := snd r.

(** [for range n { s = body(s) }] *)
Fixpoint for_range {St} (n : nat) (body : St -> M St) (s : St) : M St :=
  match n with
  | O => ret s
  | S n' => s' <- body s ;; for_range n' body s'
  end.

(** a[i] = v on a fixed-size array (i is always a constant below the length
    in the program). *)
Fixpoint array_set {A} (i : nat) (v : A) (a : list A) : list A :=
  match a, i with
  | [], _ => []
  | _ :: a', O => v :: a'
  | x :: a', S i' => x :: array_set i' v a'
  end.

(** ** package io *)
Module io.

Inductive whence := SeekStart | SeekCurrent | SeekEnd.

(** [io.ReadFull(r, buf)] with [len(buf) = n] on the file: the bytes from the
    current offset, at most [n]; the offset advances by what was obtained.
    Fewer than [n] is [EOF] when nothing was obtained and [ErrUnexpectedEOF]
    otherwise; for [n = 0] the reader is not called at all. *)
Definition ReadFull (n : nat) : M (list byte * option error) := fun f =>
  let got := firstn n (skipn (Z.to_nat (offset f)) (contents f)) in
  let f' := mkFile (contents f) (offset f + Z.of_nat (length got)) in
  let err :=
    if (length got =? n)%nat then None
    else if (length got =? 0)%nat then Some EOF
    else Some ErrUnexpectedEOF in
  ((got, err), f', if (n =? 0)%nat then [] else [FileRead n (length got)]).

End io.

(** ** package os *)
Module os.

(** [os.Open] of an existing regular file. *)
Definition Open (bytes : list byte) : File := mkFile bytes 0.

(** [File.Seek]: lseek(2) on a regular file. Any non-negative target is
    accepted, also one beyond the end of the file; a negative one is
    [EINVAL] and leaves the offset where it was. *)
Definition Seek (off : Z) (w : io.whence) : M (Z * option error) := fun f =>
  let base :=
    match w with
    | io.SeekStart => 0
    | io.SeekCurrent => offset f
    | io.SeekEnd => Z.of_nat (length (contents f))
    end in
  if base + off <? 0
  then ((0, Some EINVAL), f, [FileSeek off])
  else ((base + off, None), mkFile (contents f) (base + off), [FileSeek off]).

End os.

(** ** package fmt *)
Module fmt.
Definition Println (a : list any) : M unit := fun f => (tt, f, [Println a]).
Definition Printf (format : string) (a : list any) : M unit :=
  fun f => (tt, f, [Printf format a]).
End fmt.

(** ** package math *)
Module math.

(** The bit pattern is a NaN: exponent all ones, mantissa not zero. *)
Definition IsNaN32 (bits : Z) : bool :=
  (Z.land bits 2139095040 =? 2139095040) && negb (Z.land bits 8388607 =? 0).

(** [float32(float64(math.Float32frombits(bits)))], as bits. Every float32
    is a float64, so the value comes back as it went, except that the
    conversion turns a signalling NaN into the quiet NaN of the same sign
    and payload: the top bit of the mantissa (4194304) is set. *)
Definition Float32_via_Float64 (bits : Z) : float32 :=
  if IsNaN32 bits then Z.lor bits 4194304 else bits.

End math.

(** ** package encoding/binary *)
Module binary.

Module LittleEndian.
(** [uint16(b[0]) | uint16(b[1])<<8] *)
Definition Uint16 (b : list byte) : uint16 :=
  Z.lor (byte_val (nth 0 b x00)) (Z.shiftl (byte_val (nth 1 b x00)) 8).
(** [uint32(b[0]) | uint32(b[1])<<8 | uint32(b[2])<<16 | uint32(b[3])<<24] *)
Definition Uint32 (b : list byte) : uint32 :=
  Z.lor (Z.lor (Z.lor (byte_val (nth 0 b x00))
                      (Z.shiftl (byte_val (nth 1 b x00)) 8))
               (Z.shiftl (byte_val (nth 2 b x00)) 16))
        (Z.shiftl (byte_val (nth 3 b x00)) 24).
End LittleEndian.

(** What [binary.Read] needs to know of the value behind [data]: how many
    bytes it occupies on the wire (for a slice this depends on its length)
    and how those bytes decode, fields in declaration order. *)
Record layout (A : Type) := mkLayout {
  dataSize : A -> nat;
  value : list byte -> A }.
Arguments mkLayout {A}.
Arguments dataSize {A}.
Arguments value {A}.

Definition t_uint8 : layout uint8 :=
  mkLayout (fun _ => 1%nat) (fun bs => byte_val (nth 0 bs x00)).
Definition t_bool : layout bool :=
  mkLayout (fun _ => 1%nat) (fun bs => negb (byte_val (nth 0 bs x00) =? 0)).
Definition t_uint16 : layout uint16 :=
  mkLayout (fun _ => 2%nat) LittleEndian.Uint16.
Definition t_uint32 : layout uint32 :=
  mkLayout (fun _ => 4%nat) LittleEndian.Uint32.
Definition t_float32 : layout float32 :=
  mkLayout (fun _ => 4%nat) LittleEndian.Uint32.
(** A [float32] field of a struct, decoded by reflection:
    [v.SetFloat(float64(math.Float32frombits(d.uint32())))] on a field of
    kind [Float32]. (A [*float32] handed to [Read] directly takes the fast
    path, [*data = math.Float32frombits(..)], and keeps the bits: this is
    [t_float32].) *)
Definition float32_field (bs : list byte) : float32 :=
  math.Float32_via_Float64 (LittleEndian.Uint32 bs).
Definition t_VEC3 : layout VEC3.t :=
  mkLayout (fun _ => 12%nat) (fun bs =>
    VEC3.mk (float32_field bs)
            (float32_field (skipn 4 bs))
            (float32_field (skipn 8 bs))).
Definition t_COLOR : layout COLOR.t :=
  mkLayout (fun _ => 12%nat) (fun bs =>
    COLOR.mk (float32_field bs)
             (float32_field (skipn 4 bs))
             (float32_field (skipn 8 bs))).
Definition t_QUATERNION : layout QUATERNION.t :=
  mkLayout (fun _ => 16%nat) (fun bs =>
    QUATERNION.mk (float32_field bs)
                  (float32_field (skipn 4 bs))
                  (float32_field (skipn 8 bs))
                  (float32_field (skipn 12 bs))).
(** [*[]byte]: as many bytes as the slice is long. *)
Definition t_bytes : layout (list byte) :=
  mkLayout (fun buf => length buf) (fun bs => bs).

(** [binary.Read(r, binary.LittleEndian, &data)]: the new value of [data] and
    the error. All the bytes of the value are read first; when they are not
    all there, the error of [io.ReadFull] is returned and [data] is left as
    it was. *)
Definition Read {A} (ty : layout A) (data : A) : M (A * option error) :=
  '(bs, err) <- io.ReadFull (dataSize ty data) ;;
  match err with
  | Some e => ret (data, Some e)
  | None => ret (value ty bs, None)
  end.

End binary.

(** ** lithdat.go *)

Definition LF : string := String (ascii_of_nat 10) EmptyString.

(** [readLithSTRING(file, destination)], lines 305-311; the result is the
    string stored in [*destination]. Both errors are discarded. *)
Definition readLithSTRING : M string :=
  let size : uint16 := 0 in
  '(size, _) <- binary.Read binary.t_uint16 size ;;
  let buf := repeat x00 (Z.to_nat size) in
  '(buf, _) <- binary.Read binary.t_bytes buf ;;
  ret (string_of_list_byte buf).

(** Outcome of [main]: [os.Exit(code)], or the end of the function, with the
    values of its locals [worldHeader] and [world] at that point. *)
Inductive outcome :=
  | Exit (code : Z)
  | Return (worldHeader : HEADER.t) (world : WORLD.t).

(** [main], lines 322-339: "Parse world header". *)
Definition parse_world_header : M HEADER.t :=
  let worldHeader := HEADER.zero in
  '(v, _) <- binary.Read binary.t_uint32 (HEADER.Version worldHeader) ;;
  let worldHeader := HEADER.set_Version v worldHeader in
  '(v, _) <- binary.Read binary.t_uint32 (HEADER.ObjectDataPos worldHeader) ;;
  let worldHeader := HEADER.set_ObjectDataPos v worldHeader in
  '(v, _) <- binary.Read binary.t_uint32 (HEADER.BlindObjectDataPos worldHeader) ;;
  let worldHeader := HEADER.set_BlindObjectDataPos v worldHeader in
  '(v, _) <- binary.Read binary.t_uint32 (HEADER.LightgridPos worldHeader) ;;
  let worldHeader := HEADER.set_LightgridPos v worldHeader in
  '(v, _) <- binary.Read binary.t_uint32 (HEADER.CollisionDataPos worldHeader) ;;
  let worldHeader := HEADER.set_CollisionDataPos v worldHeader in
  '(v, _) <- binary.Read binary.t_uint32 (HEADER.ParticleBlockerDataPos worldHeader) ;;
  let worldHeader := HEADER.set_ParticleBlockerDataPos v worldHeader in
  '(v, _) <- binary.Read binary.t_uint32 (HEADER.RenderDataPos worldHeader) ;;
  let worldHeader := HEADER.set_RenderDataPos v worldHeader in
  '(v, _) <- binary.Read binary.t_uint32 (HEADER.PackerType worldHeader) ;;
  let worldHeader := HEADER.set_PackerType v worldHeader in
  '(v, _) <- binary.Read binary.t_uint32 (HEADER.PackerVersion worldHeader) ;;
  let worldHeader := HEADER.set_PackerVersion v worldHeader in
  '(v, _) <- binary.Read binary.t_uint32 (nth 0 (HEADER.Future worldHeader) 0) ;;
  let worldHeader := HEADER.set_Future (array_set 0 v (HEADER.Future worldHeader)) worldHeader in
  '(v, _) <- binary.Read binary.t_uint32 (nth 1 (HEADER.Future worldHeader) 0) ;;
  let worldHeader := HEADER.set_Future (array_set 1 v (HEADER.Future worldHeader)) worldHeader in
  '(v, _) <- binary.Read binary.t_uint32 (nth 2 (HEADER.Future worldHeader) 0) ;;
  let worldHeader := HEADER.set_Future (array_set 2 v (HEADER.Future worldHeader)) worldHeader in
  '(v, _) <- binary.Read binary.t_uint32 (nth 3 (HEADER.Future worldHeader) 0) ;;
  let worldHeader := HEADER.set_Future (array_set 3 v (HEADER.Future worldHeader)) worldHeader in
  '(v, _) <- binary.Read binary.t_uint32 (nth 4 (HEADER.Future worldHeader) 0) ;;
  let worldHeader := HEADER.set_Future (array_set 4 v (HEADER.Future worldHeader)) worldHeader in
  '(v, _) <- binary.Read binary.t_uint32 (nth 5 (HEADER.Future worldHeader) 0) ;;
  let worldHeader := HEADER.set_Future (array_set 5 v (HEADER.Future worldHeader)) worldHeader in
  fmt.Println [a_HEADER worldHeader] ;;
  ret worldHeader.

(** [main], lines 364-379: the [switch] on the type tag, which reads the
    payload into the field of the tag. It has no [default]: for a tag
    without a case nothing is read. *)
Definition parse_payload (property : PROPERTY.t) : M PROPERTY.t :=
  match PROPERTY.DataTypeFlag property with
  | 0 =>
      v <- readLithSTRING ;;
      ret (PROPERTY.set_DataString v property)
  | 1 =>
      '(v, _) <- binary.Read binary.t_VEC3 (PROPERTY.DataVEC3 property) ;;
      ret (PROPERTY.set_DataVEC3 v property)
  | 2 =>
      '(v, _) <- binary.Read binary.t_COLOR (PROPERTY.DataCOLOR property) ;;
      ret (PROPERTY.set_DataCOLOR v property)
  | 3 =>
      '(v, _) <- binary.Read binary.t_float32 (PROPERTY.DataFloat property) ;;
      ret (PROPERTY.set_DataFloat v property)
  | 5 =>
      '(v, _) <- binary.Read binary.t_bool (PROPERTY.DataBool property) ;;
      ret (PROPERTY.set_DataBool v property)
  | 6 =>
      '(v, _) <- binary.Read binary.t_uint32 (PROPERTY.DataUint32 property) ;;
      ret (PROPERTY.set_DataUint32 v property)
  | 7 =>
      '(v, _) <- binary.Read binary.t_QUATERNION (PROPERTY.DataQuaternion property) ;;
      ret (PROPERTY.set_DataQuaternion v property)
  | _ => ret property
  end.

(** [main], lines 359-380: one turn of the property loop up to and including
    the print; the result is the local [property]. *)
Definition parse_property : M PROPERTY.t :=
  let property := PROPERTY.zero in
  v <- readLithSTRING ;;
  let property := PROPERTY.set_Name v property in
  '(v, _) <- binary.Read binary.t_uint8 (PROPERTY.DataTypeFlag property) ;;
  let property := PROPERTY.set_DataTypeFlag v property in
  '(v, _) <- binary.Read binary.t_uint32 (PROPERTY.PropertyFlags property) ;;
  let property := PROPERTY.set_PropertyFlags v property in
  '(v, _) <- binary.Read binary.t_uint16 (PROPERTY.DataSize property) ;;
  let property := PROPERTY.set_DataSize v property in
  property <- parse_payload property ;;
  fmt.Println [a_PROPERTY property] ;;
  ret property.

(** [main], lines 353-382: one turn of the object loop; the result is the
    local [worldObject]. *)
Definition parse_world_object : M WORLDOBJECT.t :=
  let worldObject := WORLDOBJECT.zero in
  '(v, _) <- binary.Read binary.t_uint16 (WORLDOBJECT.ObjectSize worldObject) ;;
  let worldObject := WORLDOBJECT.set_ObjectSize v worldObject in
  v <- readLithSTRING ;;
  let worldObject := WORLDOBJECT.set_ObjectType v worldObject in
  '(v, _) <- binary.Read binary.t_uint32 (WORLDOBJECT.PropertiesLen worldObject) ;;
  let worldObject := WORLDOBJECT.set_PropertiesLen v worldObject in
  fmt.Println [a_string (LF ++ "Property Count (");
               a_string (WORLDOBJECT.ObjectType worldObject);
               a_string "):";
               a_uint32 (WORLDOBJECT.PropertiesLen worldObject);
               a_string LF] ;;
  for_range (Z.to_nat (WORLDOBJECT.PropertiesLen worldObject))
    (fun worldObject =>
       property <- parse_property ;;
       ret (WORLDOBJECT.set_Properties
              (WORLDOBJECT.Properties worldObject ++ [property]) worldObject))
    worldObject.

(** [main], lines 350-384: the count and the object loop. *)
Definition parse_world_objects (world : WORLD.t) : M WORLD.t :=
  '(v, _) <- binary.Read binary.t_uint32 (WORLD.WorldObjectsLen world) ;;
  let world := WORLD.set_WorldObjectsLen v world in
  fmt.Println [a_string (LF ++ "World Objects:");
               a_uint32 (WORLD.WorldObjectsLen world)] ;;
  for_range (Z.to_nat (WORLD.WorldObjectsLen world))
    (fun world =>
       worldObject <- parse_world_object ;;
       ret (WORLD.set_WorldObjects
              (WORLD.WorldObjects world ++ [worldObject]) world))
    world.

(** [main], lines 392-393, 410-411 and 419-420: a [uint32] prefix read into
    a field of [world] and printed. *)
Definition parse_prefix (current : uint32) : M uint32 :=
  '(v, _) <- binary.Read binary.t_uint32 current ;;
  fmt.Println [a_uint32 v] ;;
  ret v.

Definition seek_error_format : string :=
  "Error seeking to offset %d: %v" ++ LF.

(** [main], lines 322-430, on the opened [worldFile]. [int64(x)] of a
    [uint32] is [x]. *)
Definition main : M outcome :=
  worldHeader <- parse_world_header ;;
  let world := WORLD.zero in
  '(_, err) <- os.Seek (HEADER.ObjectDataPos worldHeader) io.SeekStart ;;
  fmt.Println [a_string (LF ++ "Parsing WorldObjectsData @");
               a_uint32 (HEADER.ObjectDataPos worldHeader)] ;;
  match err with
  | Some e =>
      fmt.Printf seek_error_format
        [a_uint32 (HEADER.ObjectDataPos worldHeader); a_error e] ;;
      ret (Exit 1)
  | None =>
  world <- parse_world_objects world ;;
  '(_, err) <- os.Seek (HEADER.BlindObjectDataPos worldHeader) io.SeekStart ;;
  fmt.Println [a_string (LF ++ "Parsing BlindObjectsData @");
               a_uint32 (HEADER.BlindObjectDataPos worldHeader)] ;;
  match err with
  | Some e =>
      fmt.Printf seek_error_format
        [a_uint32 (HEADER.BlindObjectDataPos worldHeader); a_error e] ;;
      ret (Exit 1)
  | None =>
  v <- parse_prefix (WORLD.BlindObjectDataSize world) ;;
  let world := WORLD.set_BlindObjectDataSize v world in
  '(_, err) <- os.Seek (HEADER.LightgridPos worldHeader) io.SeekStart ;;
  fmt.Println [a_string (LF ++ "Parsing LightgridData @");
               a_uint32 (HEADER.LightgridPos worldHeader)] ;;
  match err with
  | Some e =>
      fmt.Printf seek_error_format
        [a_uint32 (HEADER.LightgridPos worldHeader); a_error e] ;;
      ret (Exit 1)
  | None =>
  '(_, err) <- os.Seek (HEADER.CollisionDataPos worldHeader) io.SeekStart ;;
  fmt.Println [a_string (LF ++ "Parsing Physics/CollisionData @");
               a_uint32 (HEADER.CollisionDataPos worldHeader)] ;;
  match err with
  | Some e =>
      fmt.Printf seek_error_format
        [a_uint32 (HEADER.CollisionDataPos worldHeader); a_error e] ;;
      ret (Exit 1)
  | None =>
  v <- parse_prefix (WORLD.PhysicsDataLen world) ;;
  let world := WORLD.set_PhysicsDataLen v world in
  '(_, err) <- os.Seek (HEADER.ParticleBlockerDataPos worldHeader) io.SeekStart ;;
  fmt.Println [a_string (LF ++ "Parsing ParticleBlockerData @");
               a_uint32 (HEADER.ParticleBlockerDataPos worldHeader)] ;;
  match err with
  | Some e =>
      fmt.Printf seek_error_format
        [a_uint32 (HEADER.ParticleBlockerDataPos worldHeader); a_error e] ;;
      ret (Exit 1)
  | None =>
  v <- parse_prefix (WORLD.ParticleBlockerDataLen world) ;;
  let world := WORLD.set_ParticleBlockerDataLen v world in
  '(_, err) <- os.Seek (HEADER.RenderDataPos worldHeader) io.SeekStart ;;
  fmt.Println [a_string (LF ++ "Parsing RenderData @");
               a_uint32 (HEADER.ParticleBlockerDataPos worldHeader)] ;;
  match err with
  | Some e =>
      fmt.Printf seek_error_format
        [a_uint32 (HEADER.RenderDataPos worldHeader); a_error e] ;;
      ret (Exit 1)
  | None =>
  ret (Return worldHeader world)
  end end end end end end.

(** The program run on a file with the given bytes. *)
Definition run_main (bytes : list byte) : outcome * File * list event :=
  main (os.Open bytes).

(** [main] of src/lithdat.go, lines 311-328, on the opened [worldFile]: the
    first version of the program, which parses and prints the world header
    and stops (its [HEADER] has the same fields, unexported). The result is
    the local [worldHeader]. *)
Definition header_only_main : M HEADER.t :=
  worldHeader <- parse_world_header ;;
  ret worldHeader.

(** * Vocabulary of the properties *)

(** ** Observations on a run *)

(** The bytes from the current offset to the end of the file. *)
Definition remaining (f : File) : list byte :=
  skipn (Z.to_nat (offset f)) (contents f).

(** The targets of the seeks among the events, in order. *)
Definition seeks (l : list event) : list Z :=
  flat_map (fun e => match e with FileSeek o => [o] | _ => [] end) l.

(** The sizes of the reads among the events, in order. *)
Definition requests (l : list event) : list nat :=
  flat_map (fun e => match e with FileRead want _ => [want] | _ => [] end) l.

(** The file operations among the events, in order. *)
Definition file_ops (l : list event) : list event :=
  filter (fun e => match e with FileRead _ _ | FileSeek _ => true
                              | _ => false end) l.

(** What was written to standard output, in order. *)
Definition stdout (l : list event) : list event :=
  filter (fun e => match e with Println _ | Printf _ _ => true
                              | _ => false end) l.

(** [main] failed: it left through [os.Exit]. *)
Definition failed (o : outcome) : Prop :=
  match o with Exit _ => True | Return _ _ => False end.

(** ** Predicates on computations, over every file state *)

(** The computation leaves the bytes of the file alone, never moves the
    offset backwards and performs no seek. *)
Definition sequential {A} (m : M A) : Prop :=
  forall f,
    contents (file_after (m f)) = contents f
    /\ offset f <= offset (file_after (m f))
    /\ seeks (events (m f)) = [].

(** The result satisfies [Q]. *)
Definition returns {A} (m : M A) (Q : A -> Prop) : Prop :=
  forall f, Q (result (m f)).

(** The result and the lines written satisfy [Q]. *)
Definition prints {A} (m : M A) (Q : A -> list event -> Prop) : Prop :=
  forall f, Q (result (m f)) (stdout (events (m f))).

(** The reads asked for are those of [sizes]. *)
Definition asks {A} (m : M A) (sizes : list nat) : Prop :=
  forall f, requests (events (m f)) = sizes.

(** ** Sequences built by an append loop *)

(** [n] successive runs of [step], results in the order of the runs: what
    an append loop collects. *)
Fixpoint successive {A} (n : nat) (step : M A) : M (list A) :=
  match n with
  | O => ret []
  | S n' => a <- step ;; l <- successive n' step ;; ret (a :: l)
  end.

(** File order, seen from the list [l] of the [n] elements decoded from [f]
    on: element [i] is the result of [step] run where the first [i] runs
    left the file, and each run starts at or after the offset at which the
    one before started. *)
Definition decoded_in_file_order {A} (step : M A) (n : nat) (f : File)
           (l : list A) : Prop :=
  forall i, (i < n)%nat ->
    nth_error l i = Some (result (step (file_after (successive i step f))))
    /\ offset (file_after (successive i step f)) <=
       offset (file_after (successive (S i) step f)).

(** The lines one object produces: its count line, then its properties. *)
Definition object_lines (o : WORLDOBJECT.t) : list event :=
  Println [a_string (LF ++ "Property Count (");
           a_string (WORLDOBJECT.ObjectType o);
           a_string "):";
           a_uint32 (WORLDOBJECT.PropertiesLen o);
           a_string LF]
  :: map (fun p => Println [a_PROPERTY p]) (WORLDOBJECT.Properties o).

(** ** Integers and the header *)

Definition is_uint32 (z : Z) : Prop := 0 <= z < 2 ^ 32.
Definition is_uint16 (z : Z) : Prop := 0 <= z < 2 ^ 16.

Definition HEADER_wf (h : HEADER.t) : Prop :=
  is_uint32 (HEADER.Version h)
  /\ is_uint32 (HEADER.ObjectDataPos h)
  /\ is_uint32 (HEADER.BlindObjectDataPos h)
  /\ is_uint32 (HEADER.LightgridPos h)
  /\ is_uint32 (HEADER.CollisionDataPos h)
  /\ is_uint32 (HEADER.ParticleBlockerDataPos h)
  /\ is_uint32 (HEADER.RenderDataPos h)
  /\ is_uint32 (HEADER.PackerType h)
  /\ is_uint32 (HEADER.PackerVersion h)
  /\ length (HEADER.Future h) = 6%nat
  /\ Forall is_uint32 (HEADER.Future h).

(** The [uint32] at byte offset [k] of [bs]. *)
Definition u32_at (k : nat) (bs : list byte) : uint32 :=
  binary.LittleEndian.Uint32 (skipn k bs).

(** The header spelled out from its sixty bytes: spec section 6, with the
    six reserved values included. *)
Definition header_of_bytes (bs : list byte) : HEADER.t :=
  HEADER.mk (u32_at 0 bs) (u32_at 4 bs) (u32_at 8 bs) (u32_at 12 bs)
    (u32_at 16 bs) (u32_at 20 bs) (u32_at 24 bs) (u32_at 28 bs)
    (u32_at 32 bs)
    [u32_at 36 bs; u32_at 40 bs; u32_at 44 bs; u32_at 48 bs; u32_at 52 bs;
     u32_at 56 bs].

(** ** Objects, as they lie in the file *)

(** Where the parts of an object lie, for an object that starts at the
    file state [g], told with the reads alone: the property count comes
    after the [uint16] size and the length-prefixed type; the properties
    start after the count; the object ends after as many properties as the
    count says. *)
Definition object_count_position (g : File) : File :=
  file_after (readLithSTRING (file_after (binary.Read binary.t_uint16 0 g))).

Definition object_property_count (g : File) : uint32 :=
  fst (result (binary.Read binary.t_uint32 0 (object_count_position g))).

Definition object_properties_start (g : File) : File :=
  file_after (binary.Read binary.t_uint32 0 (object_count_position g)).

Definition object_end (g : File) : File :=
  file_after
    (successive (Z.to_nat (object_property_count g)) parse_property
       (object_properties_start g)).

(** Where object number [i] starts, the first one starting at [g]: each
    object starts where the one before ends. *)
Fixpoint object_start (i : nat) (g : File) : File :=
  match i with
  | O => g
  | S i' => object_end (object_start i' g)
  end.

(** The [uint32] prefix found at offset [off] of a file: the value of the
    four bytes there when the file holds them, else zero. *)
Definition prefix_at (bs : list byte) (off : Z) : uint32 :=
  if off + 4 <=? Z.of_nat (length bs) then u32_at (Z.to_nat off) bs else 0.

(** Object number [i] of the list [objs] decoded from [g0] on in the file
    [bs]: its property count is the prefix found after its size and type,
    it has as many properties as that, decoded in file order from right
    after the count, and the next object starts where its last property
    ends. *)
Definition object_laid_out (bs : list byte) (g0 : File)
           (objs : list WORLDOBJECT.t) (i : nat) : Prop :=
  let g := object_start i g0 in
  exists o,
    nth_error objs i = Some o
    /\ WORLDOBJECT.PropertiesLen o = object_property_count g
    /\ WORLDOBJECT.PropertiesLen o =
         prefix_at bs (offset (object_count_position g))
    /\ length (WORLDOBJECT.Properties o) =
         Z.to_nat (WORLDOBJECT.PropertiesLen o)
    /\ decoded_in_file_order parse_property
         (Z.to_nat (WORLDOBJECT.PropertiesLen o))
         (object_properties_start g) (WORLDOBJECT.Properties o)
    /\ offset g <= offset (object_count_position g)
    /\ offset (object_properties_start g) <= offset (object_start (S i) g0).

(** ** Strings and property records, as the spec lays them out *)

(** The events of one [readLithSTRING] that finds [n] bytes of text. *)
Definition string_reads (n : nat) : list event :=
  FileRead 2 2 :: (if (n =? 0)%nat then [] else [FileRead n n]).

(** Spec 4.4: the width of the payload of a fixed-size variant. *)
Definition spec_payload_width (tag : Z) : option nat :=
  match tag with
  | 1 => Some 12%nat
  | 2 => Some 12%nat
  | 3 => Some 4%nat
  | 5 => Some 1%nat
  | 6 => Some 4%nat
  | 7 => Some 16%nat
  | _ => None
  end.

(** Spec 4.4: the tags that select a variant. *)
Definition known_tag (tag : Z) : Prop := In tag [0; 1; 2; 3; 5; 6; 7].

(** The bytes [payload] are a whole payload for [tag]: a length-prefixed
    string for tag 0, the fixed width for the other known tags. A tag
    without a case has no payload. *)
Definition payload_ok (tag : Z) (payload : list byte) : Prop :=
  match tag with
  | 0 => exists l0 l1 body,
           payload = l0 :: l1 :: body
           /\ Z.of_nat (length body) = binary.LittleEndian.Uint16 [l0; l1]
  | _ => match spec_payload_width tag with
         | Some n => length payload = n
         | None => payload = []
         end
  end.

(** The float stored for the little-endian bits [b] of a member of a Vec3,
    Color or Quaternion: the bits themselves, and for a signalling NaN the
    quiet NaN of the same sign and payload (the bits with 0x00400000 set). *)
Definition stored_member (b : Z) : float32 :=
  if (Z.land b 2139095040 =? 2139095040) && negb (Z.land b 8388607 =? 0)
  then Z.lor b 4194304 else b.

(** The property expected from a payload: the field of the tag holds the
    value of the payload bytes (fields in order, each little-endian; a float
    as its bits, a member of a Vec3, Color or Quaternion as
    [stored_member] of its bits), every other field is as before. *)
Definition expected_payload (tag : Z) (payload : list byte) (p : PROPERTY.t)
  : PROPERTY.t :=
  let u32 k := binary.LittleEndian.Uint32 (skipn k payload) in
  let f32 k := stored_member (u32 k) in
  match tag with
  | 0 => PROPERTY.set_DataString (string_of_list_byte (skipn 2 payload)) p
  | 1 => PROPERTY.set_DataVEC3 (VEC3.mk (f32 0) (f32 4) (f32 8))%nat p
  | 2 => PROPERTY.set_DataCOLOR (COLOR.mk (f32 0) (f32 4) (f32 8))%nat p
  | 3 => PROPERTY.set_DataFloat (u32 0%nat) p
  | 5 => PROPERTY.set_DataBool (negb (byte_val (nth 0 payload x00) =? 0)) p
  | 6 => PROPERTY.set_DataUint32 (u32 0%nat) p
  | 7 => PROPERTY.set_DataQuaternion
           (QUATERNION.mk (f32 0) (f32 4) (f32 8) (f32 12))%nat p
  | _ => p
  end.

(** The property a whole record decodes to. *)
Definition expected_property (name : list byte) (tag : byte)
           (flags size payload : list byte) : PROPERTY.t :=
  expected_payload (byte_val tag) payload
    (PROPERTY.mk (string_of_list_byte name) (byte_val tag)
       (binary.LittleEndian.Uint32 flags) (binary.LittleEndian.Uint16 size)
       EmptyString VEC3.zero COLOR.zero 0 false 0 QUATERNION.zero []).

(** ** Example files *)

(** A whole file of 99 bytes. The header: version 1, the object section at
    60, blind objects at 87, light grid and collision at 91, particle
    blocker at 95, render data at 99, packer type and version 0, reserved
    values 10 to 15. *)
Definition example_header : list byte :=
  [x01; x00; x00; x00;   x3c; x00; x00; x00;   x57; x00; x00; x00;
   x5b; x00; x00; x00;   x5b; x00; x00; x00;   x5f; x00; x00; x00;
   x63; x00; x00; x00;   x00; x00; x00; x00;   x00; x00; x00; x00;
   x0a; x00; x00; x00;   x0b; x00; x00; x00;   x0c; x00; x00; x00;
   x0d; x00; x00; x00;   x0e; x00; x00; x00;   x0f; x00; x00; x00].

(** The property "n": tag 3 (float), flags 5, declared size 9, payload the
    four bytes of 1.0. *)
Definition example_property : list byte :=
  [x01; x00; x6e;   x03;   x05; x00; x00; x00;   x09; x00;
   x00; x00; x80; x3f].

(** Count 1; the object of size 9 and type "A" with one property. *)
Definition example_objects : list byte :=
  [x01; x00; x00; x00;   x09; x00;   x01; x00; x41;   x01; x00; x00; x00]
  ++ example_property.

(** Header, objects, and the prefixes 2, 3 and 4 at 87, 91 and 95. *)
Definition example_file : list byte :=
  example_header ++ example_objects ++
  [x02; x00; x00; x00;   x03; x00; x00; x00;   x04; x00; x00; x00].

(** The example file cut after the type tag of its property (77 bytes). *)
Definition truncated_file : list byte :=
  example_header ++
  [x01; x00; x00; x00;   x09; x00;   x01; x00; x41;   x01; x00; x00; x00;
   x01; x00; x6e;   x03].

(** One object with two properties: "n" with tag 4, which has no case, then
    "m" with tag 5 and payload byte 1. *)
Definition unknown_tag_file : list byte :=
  example_header ++
  [x01; x00; x00; x00;   x09; x00;   x01; x00; x41;   x02; x00; x00; x00;
   x01; x00; x6e;   x04;   x05; x00; x00; x00;   x04; x00;
   x01; x00; x6d;   x05;   x00; x00; x00; x00;   x01; x00;   x01].

(** A header alone (60 bytes) whose six offsets are all 61, one more than
    the length of the file. *)
Definition offsets_past_end_file : list byte :=
  [x01; x00; x00; x00;   x3d; x00; x00; x00;   x3d; x00; x00; x00;
   x3d; x00; x00; x00;   x3d; x00; x00; x00;   x3d; x00; x00; x00;
   x3d; x00; x00; x00;   x00; x00; x00; x00;   x00; x00; x00; x00;
   x00; x00; x00; x00;   x00; x00; x00; x00;   x00; x00; x00; x00;
   x00; x00; x00; x00;   x00; x00; x00; x00;   x00; x00; x00; x00].

(** A string that announces five bytes and holds two. *)
Definition short_string_file : list byte := [x05; x00; x61; x62].

(** The example header with its first object cut inside the type string,
    which announces five bytes and holds two. *)
Definition short_type_file : list byte :=
  example_header ++ [x01; x00; x00; x00;   x09; x00] ++ short_string_file.

(** ** Records as they lie in the file *)

(** The header field number [k] of a file: the little-endian [uint32] at
    byte [4k] when the file holds its four bytes, else zero. *)
Definition header_field (bs : list byte) (k : nat) : uint32 :=
  if (4 * k + 4 <=? length bs)%nat then u32_at (4 * k) bs else 0.

(** The header of any file, short ones included. *)
Definition header_of_file (bs : list byte) : HEADER.t :=
  HEADER.mk (header_field bs 0) (header_field bs 1) (header_field bs 2)
    (header_field bs 3) (header_field bs 4) (header_field bs 5)
    (header_field bs 6) (header_field bs 7) (header_field bs 8)
    [header_field bs 9; header_field bs 10; header_field bs 11;
     header_field bs 12; header_field bs 13; header_field bs 14].

(** The bytes of one property, in the order in which lines 360-379 read
    them: the two length bytes and the name, the tag, the flags, the
    declared size, the payload. *)
Record property_bytes := mkPropertyBytes {
  pb_len0 : byte;
  pb_len1 : byte;
  pb_name : list byte;
  pb_tag : byte;
  pb_flags : list byte;
  pb_size : list byte;
  pb_payload : list byte }.

Definition property_layout (r : property_bytes) : list byte :=
  (pb_len0 r :: pb_len1 r :: pb_name r) ++ [pb_tag r] ++ pb_flags r
  ++ pb_size r ++ pb_payload r.

(** The record is whole: the name is as long as it announces, flags and
    size have their widths, and the payload is that of the tag (none for a
    tag without a case). *)
Definition property_whole (r : property_bytes) : Prop :=
  Z.of_nat (length (pb_name r)) =
    binary.LittleEndian.Uint16 [pb_len0 r; pb_len1 r]
  /\ length (pb_flags r) = 4%nat
  /\ length (pb_size r) = 2%nat
  /\ payload_ok (byte_val (pb_tag r)) (pb_payload r).

Definition property_value (r : property_bytes) : PROPERTY.t :=
  expected_property (pb_name r) (pb_tag r) (pb_flags r) (pb_size r)
    (pb_payload r).

(** The bytes of one object, in the order in which lines 354-382 read them:
    the size, the two length bytes and the type, the property count, the
    properties. *)
Record object_bytes := mkObjectBytes {
  ob_size : list byte;
  ob_len0 : byte;
  ob_len1 : byte;
  ob_type : list byte;
  ob_count : list byte;
  ob_properties : list property_bytes }.

Definition object_layout (o : object_bytes) : list byte :=
  ob_size o ++ (ob_len0 o :: ob_len1 o :: ob_type o) ++ ob_count o
  ++ flat_map property_layout (ob_properties o).

Definition object_whole (o : object_bytes) : Prop :=
  length (ob_size o) = 2%nat
  /\ Z.of_nat (length (ob_type o)) =
       binary.LittleEndian.Uint16 [ob_len0 o; ob_len1 o]
  /\ length (ob_count o) = 4%nat
  /\ Z.of_nat (length (ob_properties o)) =
       binary.LittleEndian.Uint32 (ob_count o)
  /\ Forall property_whole (ob_properties o).

Definition object_value (o : object_bytes) : WORLDOBJECT.t :=
  WORLDOBJECT.mk (binary.LittleEndian.Uint16 (ob_size o))
    (string_of_list_byte (ob_type o))
    (binary.LittleEndian.Uint32 (ob_count o))
    (map property_value (ob_properties o)).

(** The computation looks only at the bytes from the offset on: from two
    file states with the same remaining bytes it gives the same result and
    events, moves the offset by the same amount and leaves the same
    remaining bytes. *)
Definition relocatable {A} (m : M A) : Prop :=
  forall f1 f2,
    0 <= offset f1 -> 0 <= offset f2 ->
    remaining f1 = remaining f2 ->
    result (m f1) = result (m f2)
    /\ events (m f1) = events (m f2)
    /\ remaining (file_after (m f1)) = remaining (file_after (m f2))
    /\ 0 <= offset (file_after (m f1))
    /\ 0 <= offset (file_after (m f2))
    /\ offset (file_after (m f1)) - offset f1 =
       offset (file_after (m f2)) - offset f2.

(** The example property and object, field by field. *)
Definition example_property_bytes : property_bytes :=
  mkPropertyBytes x01 x00 [x6e] x03 [x05; x00; x00; x00] [x09; x00]
    [x00; x00; x80; x3f].

Definition example_object_bytes : object_bytes :=
  mkObjectBytes [x09; x00] x01 x00 [x41] [x01; x00; x00; x00]
    [example_property_bytes].

(** The example file with its sections moved four bytes further: the header
    stores 64, 91, 95, 95, 99 and 103, and four bytes of padding follow
    it. *)
Definition moved_example_file : list byte :=
  [x01; x00; x00; x00;   x40; x00; x00; x00;   x5b; x00; x00; x00;
   x5f; x00; x00; x00;   x5f; x00; x00; x00;   x63; x00; x00; x00;
   x67; x00; x00; x00;   x00; x00; x00; x00;   x00; x00; x00; x00;
   x0a; x00; x00; x00;   x0b; x00; x00; x00;   x0c; x00; x00; x00;
   x0d; x00; x00; x00;   x0e; x00; x00; x00;   x0f; x00; x00; x00]
  ++ [xff; xff; xff; xff] ++ example_objects ++
  [x02; x00; x00; x00;   x03; x00; x00; x00;   x04; x00; x00; x00].

(** A header whose object section is the count 3 in the last four bytes of
    the file (64 bytes). *)
Definition count_only_file : list byte :=
  example_header ++ [x03; x00; x00; x00].

(** Only the payload field selected by the tag of the property may differ
    from its zero value; [Data] is never written. *)
Definition payload_matches_tag (p : PROPERTY.t) : Prop :=
  (PROPERTY.DataTypeFlag p <> 0 -> PROPERTY.DataString p = EmptyString)
  /\ (PROPERTY.DataTypeFlag p <> 1 -> PROPERTY.DataVEC3 p = VEC3.zero)
  /\ (PROPERTY.DataTypeFlag p <> 2 -> PROPERTY.DataCOLOR p = COLOR.zero)
  /\ (PROPERTY.DataTypeFlag p <> 3 -> PROPERTY.DataFloat p = 0)
  /\ (PROPERTY.DataTypeFlag p <> 5 -> PROPERTY.DataBool p = false)
  /\ (PROPERTY.DataTypeFlag p <> 6 -> PROPERTY.DataUint32 p = 0)
  /\ (PROPERTY.DataTypeFlag p <> 7 ->
      PROPERTY.DataQuaternion p = QUATERNION.zero)
  /\ PROPERTY.Data p = [].

(** The fixed fields of a property are within their widths. *)
Definition property_in_range (p : PROPERTY.t) : Prop :=
  0 <= PROPERTY.DataTypeFlag p < 256
  /\ is_uint32 (PROPERTY.PropertyFlags p)
  /\ is_uint16 (PROPERTY.DataSize p).

(** * Properties of the decoder *)

(** ** Floats of a struct *)

(** A signalling NaN among the members of a Vec3 (bits 0x7f800001) is
    stored quiet (0x7fc00001); an infinity and 1.0 are stored as they are,
    and so is a signalling NaN read into a bare [float32]. *)
Lemma struct_member_NaN_is_quiet :
  binary.value binary.t_VEC3
    [x01; x00; x80; x7f;   x00; x00; x80; x7f;   x00; x00; x80; x3f]
  = VEC3.mk 2143289345 2139095040 1065353216
  /\ binary.value binary.t_float32 [x01; x00; x80; x7f] = 2139095041.
Proof. split; reflexivity. Qed.

(** The same through the decoder: the property "n" with tag 1 and those
    twelve bytes as payload. *)
Lemma parse_property_quiets_NaN :
  PROPERTY.DataVEC3
    (result (parse_property
       (mkFile [x01; x00; x6e;   x01;   x05; x00; x00; x00;   x0c; x00;
                x01; x00; x80; x7f;   x00; x00; x80; x7f;
                x00; x00; x80; x3f] 0)))
  = VEC3.mk 2143289345 2139095040 1065353216.
Proof. vm_compute. reflexivity. Qed.

(** A value that is not a NaN, and a NaN that is quiet already, come back
    as they went. *)
Lemma Float32_via_Float64_fixed (bits : Z) :
  math.IsNaN32 bits = false \/ Z.testbit bits 22 = true ->
  math.Float32_via_Float64 bits = bits.
Proof.
  unfold math.Float32_via_Float64. intros [H|H].
  - rewrite H. reflexivity.
  - destruct (math.IsNaN32 bits); [|reflexivity].
    apply Z.bits_inj'. intros n Hn. rewrite Z.lor_spec.
    destruct (Z.eq_dec n 22) as [->|Hne].
    + rewrite H. reflexivity.
    + replace 4194304 with (2 ^ 22) by reflexivity.
      rewrite Z.pow2_bits_eqb by lia.
      destruct (Z.eqb_spec 22 n); [lia|]. apply orb_false_r.
Qed.

(** Quieting is done once. *)
Lemma Float32_via_Float64_idempotent (bits : Z) :
  math.Float32_via_Float64 (math.Float32_via_Float64 bits) =
  math.Float32_via_Float64 bits.
Proof.
  destruct (math.IsNaN32 bits) eqn:E.
  - assert (H : math.Float32_via_Float64 bits = Z.lor bits 4194304)
      by (unfold math.Float32_via_Float64; rewrite E; reflexivity).
    rewrite H. apply Float32_via_Float64_fixed. right.
    rewrite Z.lor_spec. replace 4194304 with (2 ^ 22) by reflexivity.
    rewrite Z.pow2_bits_eqb by lia. apply orb_true_r.
  - assert (H : math.Float32_via_Float64 bits = bits)
      by (unfold math.Float32_via_Float64; rewrite E; reflexivity).
    rewrite H. exact H.
Qed.

(** ** Integers decoded from bytes *)

Lemma byte_val_range (b : byte) : 0 <= byte_val b < 256.
Proof.
  unfold byte_val. pose proof (Byte.to_N_bounded b). lia.
Qed.

Lemma lor_below_pow2 (n a b : Z) :
  0 <= a < 2 ^ n -> 0 <= b < 2 ^ n -> 0 <= Z.lor a b < 2 ^ n.
Proof.
  intros Ha Hb. split.
  - apply Z.lor_nonneg. lia.
  - destruct (Z.eq_dec a 0) as [->|Na]; [rewrite Z.lor_0_l; lia|].
    destruct (Z.eq_dec b 0) as [->|Nb]; [rewrite Z.lor_0_r; lia|].
    assert (0 < Z.lor a b).
    { assert (0 <= Z.lor a b) by (apply Z.lor_nonneg; lia).
      assert (Z.lor a b <> 0) by (rewrite Z.lor_eq_0_iff; lia). lia. }
    apply Z.log2_lt_pow2; [assumption|].
    rewrite Z.log2_lor by lia.
    apply Z.max_lub_lt; apply Z.log2_lt_pow2; lia.
Qed.

Lemma shiftl_byte_below (b : byte) (k n : Z) :
  0 <= k -> k + 8 <= n -> 0 <= Z.shiftl (byte_val b) k < 2 ^ n.
Proof.
  intros Hk Hn. pose proof (byte_val_range b) as Hb.
  rewrite Z.shiftl_mul_pow2 by assumption.
  assert (0 < 2 ^ k) by (apply Z.pow_pos_nonneg; lia).
  assert (2 ^ (k + 8) <= 2 ^ n) by (apply Z.pow_le_mono_r; lia).
  rewrite Z.pow_add_r in * by lia. change (2 ^ 8) with 256 in *. nia.
Qed.

Lemma Uint16_range (bs : list byte) : is_uint16 (binary.LittleEndian.Uint16 bs).
Proof.
  unfold is_uint16, binary.LittleEndian.Uint16.
  apply lor_below_pow2.
  - pose proof (byte_val_range (nth 0 bs x00)). lia.
  - apply shiftl_byte_below; lia.
Qed.

Lemma Uint32_range (bs : list byte) : is_uint32 (binary.LittleEndian.Uint32 bs).
Proof.
  unfold is_uint32, binary.LittleEndian.Uint32.
  repeat apply lor_below_pow2; try (apply shiftl_byte_below; lia).
  pose proof (byte_val_range (nth 0 bs x00)). lia.
Qed.

(** ** The reads *)

Lemma ReadFull_enough (n : nat) (f : File) (data rest : list byte) :
  0 <= offset f ->
  remaining f = data ++ rest ->
  length data = n ->
  exists f',
    io.ReadFull n f =
      ((data, None), f', if (n =? 0)%nat then [] else [FileRead n n])
    /\ contents f' = contents f
    /\ offset f' = offset f + Z.of_nat n
    /\ remaining f' = rest.
Proof.
  intros Hoff Hrem Hlen. unfold io.ReadFull.
  fold (remaining f). rewrite Hrem.
  assert (Hgot : firstn n (data ++ rest) = data).
  { rewrite <- Hlen. rewrite firstn_app, Nat.sub_diag, firstn_all. simpl.
    apply app_nil_r. }
  rewrite Hgot, Hlen, Nat.eqb_refl.
  eexists. split; [reflexivity|]. simpl. repeat split.
  unfold remaining. simpl.
  rewrite Z2Nat.inj_add, Nat2Z.id by lia.
  rewrite Nat.add_comm, <- skipn_skipn. fold (remaining f). rewrite Hrem.
  rewrite <- Hlen, skipn_app, Nat.sub_diag, skipn_all. reflexivity.
Qed.

Lemma ReadFull_short (n : nat) (f : File) :
  (length (remaining f) < n)%nat ->
  exists got e,
    io.ReadFull n f =
      ((got, Some e),
       mkFile (contents f) (offset f + Z.of_nat (length (remaining f))),
       [FileRead n (length (remaining f))])
    /\ got = remaining f.
Proof.
  intros Hlt. unfold io.ReadFull. fold (remaining f).
  rewrite firstn_all2 by lia.
  destruct (Nat.eqb_spec (length (remaining f)) n) as [E|_]; [lia|].
  destruct (Nat.eqb_spec n 0) as [E|_]; [lia|].
  destruct (length (remaining f) =? 0)%nat; eexists; eexists; split; reflexivity.
Qed.

Lemma Read_enough {A} (ty : binary.layout A) (cur : A) (f : File)
      (data rest : list byte) :
  0 <= offset f ->
  remaining f = data ++ rest ->
  length data = binary.dataSize ty cur ->
  exists f',
    binary.Read ty cur f =
      ((binary.value ty data, None), f',
       if (binary.dataSize ty cur =? 0)%nat then []
       else [FileRead (binary.dataSize ty cur) (binary.dataSize ty cur)])
    /\ contents f' = contents f
    /\ offset f' = offset f + Z.of_nat (binary.dataSize ty cur)
    /\ remaining f' = rest.
Proof.
  intros Hoff Hrem Hlen.
  destruct (ReadFull_enough _ f data rest Hoff Hrem Hlen)
    as (f' & E & Hc & Ho & Hr).
  exists f'. unfold binary.Read, bind. rewrite E. simpl.
  rewrite app_nil_r. auto.
Qed.

Lemma Read_short {A} (ty : binary.layout A) (cur : A) (f : File) :
  (length (remaining f) < binary.dataSize ty cur)%nat ->
  exists e,
    binary.Read ty cur f =
      ((cur, Some e),
       mkFile (contents f) (offset f + Z.of_nat (length (remaining f))),
       [FileRead (binary.dataSize ty cur) (length (remaining f))]).
Proof.
  intros Hlt.
  destruct (ReadFull_short _ f Hlt) as (got & e & E & _).
  exists e. unfold binary.Read, bind. rewrite E. reflexivity.
Qed.

(** ** Sequential computations

    Everything built from reads and prints is sequential. *)

Lemma seeks_app (l1 l2 : list event) : seeks (l1 ++ l2) = seeks l1 ++ seeks l2.
Proof. apply flat_map_app. Qed.

Lemma file_ops_app (l1 l2 : list event) :
  file_ops (l1 ++ l2) = file_ops l1 ++ file_ops l2.
Proof. apply filter_app. Qed.

Lemma stdout_app (l1 l2 : list event) :
  stdout (l1 ++ l2) = stdout l1 ++ stdout l2.
Proof. apply filter_app. Qed.

Lemma sequential_ret {A} (a : A) : sequential (ret a).
Proof. intros f. cbn. repeat split. lia. Qed.

Lemma sequential_bind {A B} (m : M A) (k : A -> M B) :
  sequential m -> (forall a, sequential (k a)) -> sequential (bind m k).
Proof.
  intros Hm Hk f. unfold bind.
  specialize (Hm f). destruct (m f) as [[a f1] l1].
  specialize (Hk a f1). destruct (k a f1) as [[b f2] l2].
  cbn [file_after events fst snd] in *.
  destruct Hm as (C1 & O1 & S1), Hk as (C2 & O2 & S2).
  repeat split; [congruence | lia |].
  rewrite seeks_app, S1, S2. reflexivity.
Qed.

Lemma sequential_ReadFull (n : nat) : sequential (io.ReadFull n).
Proof.
  intros f. unfold io.ReadFull. cbn. repeat split; [lia|].
  destruct (n =? 0)%nat; reflexivity.
Qed.

Lemma sequential_Println (a : list any) : sequential (fmt.Println a).
Proof. intros f. cbn. repeat split. lia. Qed.

Lemma sequential_Read {A} (ty : binary.layout A) (cur : A) :
  sequential (binary.Read ty cur).
Proof.
  unfold binary.Read. apply sequential_bind; [apply sequential_ReadFull|].
  intros [bs [e|]]; apply sequential_ret.
Qed.

Lemma sequential_for_range {St} (body : St -> M St) (n : nat) :
  (forall s, sequential (body s)) -> forall s, sequential (for_range n body s).
Proof.
  intros Hb. induction n as [|n IH]; intros s; simpl.
  - apply sequential_ret.
  - apply sequential_bind; auto.
Qed.

Lemma sequential_successive {A} (step : M A) (n : nat) :
  sequential step -> sequential (successive n step).
Proof.
  intros Hs. induction n as [|n IH]; simpl.
  - apply sequential_ret.
  - apply sequential_bind; [assumption|]. intros a.
    apply sequential_bind; [assumption|]. intros l. apply sequential_ret.
Qed.

Create HintDb seq.
#[local] Hint Resolve sequential_ret sequential_ReadFull sequential_Println
  sequential_Read : seq.

(** Splits a computation written with the notations into its steps. *)
Ltac seq_steps :=
  repeat first
    [ apply sequential_bind; [solve [auto with seq] | intros ?]
    | match goal with
      | x : (_ * _)%type |- _ => destruct x
      end
    | solve [auto with seq] ].

Lemma sequential_readLithSTRING : sequential readLithSTRING.
Proof. unfold readLithSTRING. seq_steps. Qed.
#[local] Hint Resolve sequential_readLithSTRING : seq.

Lemma sequential_parse_payload (p : PROPERTY.t) : sequential (parse_payload p).
Proof.
  unfold parse_payload.
  destruct (PROPERTY.DataTypeFlag p) as [|q|q]; [seq_steps| |seq_steps].
  destruct q as [[[]|[]|]|[[]|[]|]|]; seq_steps.
Qed.
#[local] Hint Resolve sequential_parse_payload : seq.

Lemma sequential_parse_property : sequential parse_property.
Proof. unfold parse_property. seq_steps. Qed.
#[local] Hint Resolve sequential_parse_property : seq.

Lemma sequential_parse_world_object : sequential parse_world_object.
Proof.
  unfold parse_world_object. seq_steps.
  apply sequential_for_range. intros s. seq_steps.
Qed.
#[local] Hint Resolve sequential_parse_world_object : seq.

Lemma sequential_parse_world_objects (w : WORLD.t) :
  sequential (parse_world_objects w).
Proof.
  unfold parse_world_objects. seq_steps.
  apply sequential_for_range. intros s. seq_steps.
Qed.

Lemma sequential_parse_prefix (cur : uint32) : sequential (parse_prefix cur).
Proof. unfold parse_prefix. seq_steps. Qed.

Lemma sequential_parse_world_header : sequential parse_world_header.
Proof. unfold parse_world_header. seq_steps. Qed.

(** ** What a computation returns, whatever the file *)

Lemma returns_ret {A} (a : A) (Q : A -> Prop) : Q a -> returns (ret a) Q.
Proof. intros H f. exact H. Qed.

Lemma returns_bind {A B} (m : M A) (k : A -> M B) (P : A -> Prop)
      (Q : B -> Prop) :
  returns m P -> (forall a, P a -> returns (k a) Q) -> returns (bind m k) Q.
Proof.
  intros Hm Hk f. unfold bind, result.
  specialize (Hm f). unfold result in Hm.
  destruct (m f) as [[a f1] l1]. cbn [fst] in Hm.
  specialize (Hk a Hm f1). unfold result in Hk.
  destruct (k a f1) as [[b f2] l2]. exact Hk.
Qed.

Lemma returns_weaken {A} (m : M A) (P Q : A -> Prop) :
  returns m P -> (forall a, P a -> Q a) -> returns m Q.
Proof. intros H HPQ f. apply HPQ, H. Qed.

Lemma returns_Read {A} (ty : binary.layout A) (cur : A) (Q : A -> Prop) :
  Q cur -> (forall bs, Q (binary.value ty bs)) ->
  returns (binary.Read ty cur) (fun r => Q (fst r)).
Proof.
  intros Hc Hv f. unfold binary.Read, bind, result.
  destruct (io.ReadFull (binary.dataSize ty cur) f) as [[[bs [e|]] f1] l1];
    cbn; auto.
Qed.

Lemma returns_Read_uint32 (cur : uint32) :
  is_uint32 cur ->
  returns (binary.Read binary.t_uint32 cur) (fun r => is_uint32 (fst r)).
Proof.
  intros H. apply (returns_Read binary.t_uint32 cur is_uint32 H).
  intros bs. apply Uint32_range.
Qed.

Lemma returns_successive {A} (step : M A) (Q : A -> Prop) (n : nat) :
  returns step Q ->
  returns (successive n step) (fun l => length l = n /\ Forall Q l).
Proof.
  intros Hs. induction n as [|n IH]; simpl.
  - apply returns_ret. auto.
  - eapply returns_bind; [exact Hs|]. intros a Ha.
    eapply returns_bind; [exact IH|]. intros l [Hl HQ].
    apply returns_ret. simpl. auto.
Qed.

(** ** Append loops *)

(** A loop that decodes an element and appends it to a field of its state
    collects the successive decodes, in order, after what the field held. *)
Lemma for_range_append {A St} (step : M A) (get : St -> list A)
      (set : list A -> St -> St) :
  (forall l1 l2 s, set l2 (set l1 s) = set l2 s) ->
  (forall l s, get (set l s) = l) ->
  (forall s, set (get s) s = s) ->
  forall n s f,
    for_range n (fun s => a <- step ;; ret (set (get s ++ [a]) s)) s f =
    (set (get s ++ result (successive n step f)) s,
     file_after (successive n step f),
     events (successive n step f)).
Proof.
  intros Hss Hgs Hsg. induction n as [|n IH]; intros s f.
  - cbn. rewrite app_nil_r, Hsg. reflexivity.
  - cbn [for_range successive]. unfold bind in *.
    destruct (step f) as [[a f1] l1]. cbn [ret].
    rewrite IH. rewrite Hss, Hgs.
    unfold result, file_after, events.
    destruct (successive n step f1) as [[l f2] l2]. cbn [fst snd].
    rewrite <- app_assoc, !app_nil_r. reflexivity.
Qed.

Lemma WORLDOBJECT_set_set l1 l2 o :
  WORLDOBJECT.set_Properties l2 (WORLDOBJECT.set_Properties l1 o) =
  WORLDOBJECT.set_Properties l2 o.
Proof. reflexivity. Qed.

Lemma WORLDOBJECT_set_get o :
  WORLDOBJECT.set_Properties (WORLDOBJECT.Properties o) o = o.
Proof. destruct o. reflexivity. Qed.

Lemma WORLD_set_set l1 l2 w :
  WORLD.set_WorldObjects l2 (WORLD.set_WorldObjects l1 w) =
  WORLD.set_WorldObjects l2 w.
Proof. reflexivity. Qed.

Lemma WORLD_set_get w : WORLD.set_WorldObjects (WORLD.WorldObjects w) w = w.
Proof. destruct w. reflexivity. Qed.

(** The object block, with its loops unrolled into [successive]. *)
Lemma parse_world_object_eq (f : File) :
  let r1 := binary.Read binary.t_uint16 0 f in
  let r2 := readLithSTRING (file_after r1) in
  let r3 := binary.Read binary.t_uint32 0 (file_after r2) in
  let n := fst (result r3) in
  let r4 := successive (Z.to_nat n) parse_property (file_after r3) in
  parse_world_object f =
    (WORLDOBJECT.mk (fst (result r1)) (result r2) n (result r4),
     file_after r4,
     events r1 ++ events r2 ++ events r3 ++
     Println [a_string (LF ++ "Property Count ("); a_string (result r2);
              a_string "):"; a_uint32 n; a_string LF] :: events r4).
Proof.
  cbv zeta. unfold parse_world_object, bind.
  change (WORLDOBJECT.ObjectSize WORLDOBJECT.zero) with 0.
  destruct (binary.Read binary.t_uint16 0 f) as [[[v1 e1] f1] l1].
  cbn [result file_after events fst snd].
  destruct (readLithSTRING f1) as [[v2 f2] l2].
  cbn [result file_after events fst snd WORLDOBJECT.PropertiesLen
       WORLDOBJECT.set_ObjectType WORLDOBJECT.set_ObjectSize WORLDOBJECT.zero].
  destruct (binary.Read binary.t_uint32 0 f2) as [[[v3 e3] f3] l3].
  cbn [result file_after events fst snd WORLDOBJECT.PropertiesLen
       WORLDOBJECT.set_PropertiesLen WORLDOBJECT.ObjectSize
       WORLDOBJECT.ObjectType WORLDOBJECT.Properties fmt.Println].
  rewrite (for_range_append parse_property WORLDOBJECT.Properties
             WORLDOBJECT.set_Properties WORLDOBJECT_set_set
             (fun l s => eq_refl) WORLDOBJECT_set_get).
  cbn [WORLDOBJECT.Properties WORLDOBJECT.set_Properties app
       WORLDOBJECT.ObjectSize WORLDOBJECT.ObjectType WORLDOBJECT.PropertiesLen].
  repeat f_equal.
Qed.

(** The object section, with its loop unrolled into [successive]. *)
Lemma parse_world_objects_eq (f : File) :
  let r1 := binary.Read binary.t_uint32 0 f in
  let n := fst (result r1) in
  let r2 := successive (Z.to_nat n) parse_world_object (file_after r1) in
  parse_world_objects WORLD.zero f =
    (WORLD.set_WorldObjects (result r2)
       (WORLD.set_WorldObjectsLen n WORLD.zero),
     file_after r2,
     events r1 ++
     Println [a_string (LF ++ "World Objects:"); a_uint32 n] :: events r2).
Proof.
  cbv zeta. unfold parse_world_objects, bind.
  change (WORLD.WorldObjectsLen WORLD.zero) with 0.
  destruct (binary.Read binary.t_uint32 0 f) as [[[v1 e1] f1] l1].
  cbn [result file_after events fst snd fmt.Println].
  change (WORLD.WorldObjectsLen (WORLD.set_WorldObjectsLen v1 WORLD.zero))
    with v1.
  rewrite (for_range_append parse_world_object WORLD.WorldObjects
             WORLD.set_WorldObjects WORLD_set_set
             (fun l s => eq_refl) WORLD_set_get).
  reflexivity.
Qed.

(** Only the two object fields of [world] are written by the object
    section. *)
Lemma parse_world_objects_frame (f : File) :
  let w := result (parse_world_objects WORLD.zero f) in
  w = WORLD.set_WorldObjects (WORLD.WorldObjects w)
        (WORLD.set_WorldObjectsLen (WORLD.WorldObjectsLen w) WORLD.zero).
Proof.
  cbv zeta. rewrite parse_world_objects_eq. reflexivity.
Qed.

(** ** The header holds unsigned 32-bit values *)

Lemma is_uint32_0 : is_uint32 0.
Proof. unfold is_uint32. lia. Qed.

Ltac header_step :=
  eapply returns_bind;
  [ apply returns_Read_uint32; exact is_uint32_0
  | let v := fresh "v" in let e := fresh "e" in let Hv := fresh "Hv" in
    intros [v e] Hv; cbn [fst] in Hv ].

Lemma returns_parse_world_header : returns parse_world_header HEADER_wf.
Proof.
  unfold parse_world_header.
  do 15 header_step.
  eapply returns_bind with (P := fun _ => True); [intros f; exact I|].
  intros _ _. apply returns_ret.
  unfold HEADER_wf. cbn.
  unfold is_uint32 in *.
  repeat split; try lia.
  repeat constructor; lia.
Qed.

(** ** The dispatcher

    [main] on any file, with every block run from the state it is entered
    in: the header from offset 0, each section from its header offset. The
    seeks cannot fail, since a [uint32] target is never negative. *)
Lemma main_dispatch (bs : list byte) :
  let r0 := parse_world_header (os.Open bs) in
  let h := result r0 in
  let r1 := parse_world_objects WORLD.zero
              (mkFile bs (HEADER.ObjectDataPos h)) in
  let r2 := parse_prefix 0 (mkFile bs (HEADER.BlindObjectDataPos h)) in
  let r3 := parse_prefix 0 (mkFile bs (HEADER.CollisionDataPos h)) in
  let r4 := parse_prefix 0 (mkFile bs (HEADER.ParticleBlockerDataPos h)) in
  run_main bs =
    (Return h
       (WORLD.set_ParticleBlockerDataLen (result r4)
          (WORLD.set_PhysicsDataLen (result r3)
             (WORLD.set_BlindObjectDataSize (result r2) (result r1)))),
     mkFile bs (HEADER.RenderDataPos h),
     events r0 ++
     [FileSeek (HEADER.ObjectDataPos h);
      Println [a_string (LF ++ "Parsing WorldObjectsData @");
               a_uint32 (HEADER.ObjectDataPos h)]] ++
     events r1 ++
     [FileSeek (HEADER.BlindObjectDataPos h);
      Println [a_string (LF ++ "Parsing BlindObjectsData @");
               a_uint32 (HEADER.BlindObjectDataPos h)]] ++
     events r2 ++
     [FileSeek (HEADER.LightgridPos h);
      Println [a_string (LF ++ "Parsing LightgridData @");
               a_uint32 (HEADER.LightgridPos h)];
      FileSeek (HEADER.CollisionDataPos h);
      Println [a_string (LF ++ "Parsing Physics/CollisionData @");
               a_uint32 (HEADER.CollisionDataPos h)]] ++
     events r3 ++
     [FileSeek (HEADER.ParticleBlockerDataPos h);
      Println [a_string (LF ++ "Parsing ParticleBlockerData @");
               a_uint32 (HEADER.ParticleBlockerDataPos h)]] ++
     events r4 ++
     [FileSeek (HEADER.RenderDataPos h);
      Println [a_string (LF ++ "Parsing RenderData @");
               a_uint32 (HEADER.ParticleBlockerDataPos h)]]).
Proof.
  cbv zeta. unfold run_main, main, bind.
  pose proof (returns_parse_world_header (os.Open bs)) as Hwf.
  destruct (sequential_parse_world_header (os.Open bs)) as (Hc0 & _ & _).
  destruct (parse_world_header (os.Open bs)) as [[h f0] l0].
  cbn [result file_after events fst snd os.Open contents] in *.
  destruct Hwf as (_ & H1 & H2 & H3 & H4 & H5 & H6 & _).
  unfold is_uint32 in *.
  unfold os.Seek, fmt.Println. cbn [Z.add contents offset].
  destruct (Z.ltb_spec (HEADER.ObjectDataPos h) 0) as [?|_]; [lia|].
  destruct (Z.ltb_spec (HEADER.BlindObjectDataPos h) 0) as [?|_]; [lia|].
  destruct (Z.ltb_spec (HEADER.LightgridPos h) 0) as [?|_]; [lia|].
  destruct (Z.ltb_spec (HEADER.CollisionDataPos h) 0) as [?|_]; [lia|].
  destruct (Z.ltb_spec (HEADER.ParticleBlockerDataPos h) 0) as [?|_]; [lia|].
  destruct (Z.ltb_spec (HEADER.RenderDataPos h) 0) as [?|_]; [lia|].
  rewrite Hc0.
  pose proof (parse_world_objects_frame (mkFile bs (HEADER.ObjectDataPos h)))
    as Hfr.
  destruct (sequential_parse_world_objects WORLD.zero
              (mkFile bs (HEADER.ObjectDataPos h))) as (Hc1 & _ & _).
  destruct (parse_world_objects WORLD.zero (mkFile bs (HEADER.ObjectDataPos h)))
    as [[w1 f1] l1].
  cbn [result file_after events fst snd contents] in *.
  rewrite Hc1.
  replace (WORLD.BlindObjectDataSize w1) with 0 by (rewrite Hfr; reflexivity).
  destruct (sequential_parse_prefix 0
              (mkFile bs (HEADER.BlindObjectDataPos h))) as (Hc2 & _ & _).
  destruct (parse_prefix 0 (mkFile bs (HEADER.BlindObjectDataPos h)))
    as [[v2 f2] l2].
  cbn [result file_after events fst snd contents] in *. rewrite Hc2.
  replace (WORLD.PhysicsDataLen (WORLD.set_BlindObjectDataSize v2 w1))
    with 0 by (rewrite Hfr; reflexivity).
  destruct (sequential_parse_prefix 0
              (mkFile bs (HEADER.CollisionDataPos h))) as (Hc3 & _ & _).
  destruct (parse_prefix 0 (mkFile bs (HEADER.CollisionDataPos h)))
    as [[v3 f3] l3].
  cbn [result file_after events fst snd contents] in *. rewrite Hc3.
  replace (WORLD.ParticleBlockerDataLen
             (WORLD.set_PhysicsDataLen v3
                (WORLD.set_BlindObjectDataSize v2 w1)))
    with 0 by (rewrite Hfr; reflexivity).
  destruct (sequential_parse_prefix 0
              (mkFile bs (HEADER.ParticleBlockerDataPos h))) as (Hc4 & _ & _).
  destruct (parse_prefix 0 (mkFile bs (HEADER.ParticleBlockerDataPos h)))
    as [[v4 f4] l4].
  cbn [result file_after events fst snd contents ret] in *. rewrite Hc4.
  cbn [app fst snd]. rewrite ?app_nil_r.
  repeat (rewrite <- ?app_assoc; cbn [app]).
  reflexivity.
Qed.

(** ** Strings on well-formed and on truncated input *)

Lemma readLithSTRING_enough (f : File) (l0 l1 : byte) (body rest : list byte) :
  0 <= offset f ->
  remaining f = l0 :: l1 :: body ++ rest ->
  Z.of_nat (length body) = binary.LittleEndian.Uint16 [l0; l1] ->
  exists f',
    readLithSTRING f =
      (string_of_list_byte body, f', string_reads (length body))
    /\ contents f' = contents f
    /\ offset f' = offset f + 2 + Z.of_nat (length body)
    /\ remaining f' = rest.
Proof.
  intros Hoff Hrem Hlen. unfold readLithSTRING, bind.
  destruct (Read_enough binary.t_uint16 0 f [l0; l1] (body ++ rest))
    as (f1 & E1 & C1 & O1 & R1); auto.
  rewrite E1. cbn [binary.value binary.t_uint16].
  rewrite <- Hlen, Nat2Z.id.
  destruct (Read_enough binary.t_bytes (repeat x00 (length body)) f1 body rest)
    as (f2 & E2 & C2 & O2 & R2); auto.
  { lia. }
  { cbn. rewrite repeat_length. reflexivity. }
  rewrite E2. cbn [binary.dataSize binary.t_bytes binary.t_uint16
                   binary.value ret Nat.eqb app].
  rewrite repeat_length, app_nil_r.
  exists f2. split; [reflexivity|].
  cbn [binary.dataSize binary.t_bytes binary.t_uint16] in *.
  rewrite repeat_length in O2.
  repeat split; [congruence | lia | assumption].
Qed.

(** Fewer bytes than announced: the text is [length] zero bytes, the offset
    is at the end of the file, and nothing reports the shortage. *)
Lemma readLithSTRING_short (f : File) (l0 l1 : byte) (body : list byte) :
  0 <= offset f ->
  remaining f = l0 :: l1 :: body ->
  Z.of_nat (length body) < binary.LittleEndian.Uint16 [l0; l1] ->
  exists f',
    readLithSTRING f =
      (string_of_list_byte
         (repeat x00 (Z.to_nat (binary.LittleEndian.Uint16 [l0; l1]))),
       f',
       [FileRead 2 2;
        FileRead (Z.to_nat (binary.LittleEndian.Uint16 [l0; l1]))
                 (length body)])
    /\ contents f' = contents f
    /\ offset f' = offset f + 2 + Z.of_nat (length body)
    /\ remaining f' = [].
Proof.
  intros Hoff Hrem Hlen. unfold readLithSTRING, bind.
  destruct (Read_enough binary.t_uint16 0 f [l0; l1] body)
    as (f1 & E1 & C1 & O1 & R1); auto.
  rewrite E1. cbn [binary.value binary.t_uint16].
  set (n := Z.to_nat (binary.LittleEndian.Uint16 [l0; l1])) in *.
  destruct (Read_short binary.t_bytes (repeat x00 n) f1) as (e & E2).
  { cbn. rewrite repeat_length, R1. lia. }
  rewrite E2, R1. cbn [binary.dataSize binary.t_bytes binary.t_uint16
                      ret Nat.eqb app].
  rewrite repeat_length.
  eexists. split; [reflexivity|].
  cbn [contents offset binary.dataSize binary.t_uint16] in *.
  repeat split; [assumption | lia |].
  unfold remaining. cbn [contents offset].
  apply skipn_all2.
  assert (length (remaining f1) = length body) by (rewrite R1; reflexivity).
  unfold remaining in H. rewrite length_skipn in H. lia.
Qed.

(** At the end of the file the size itself is missing: the empty string. *)
Lemma readLithSTRING_eof (f : File) :
  remaining f = [] ->
  readLithSTRING f = (EmptyString, f, [FileRead 2 0]).
Proof.
  intros Hrem. unfold readLithSTRING, bind.
  destruct (Read_short binary.t_uint16 0 f) as (e & E1).
  { rewrite Hrem. cbn. lia. }
  rewrite E1, Hrem. cbn [length Z.of_nat]. rewrite Z.add_0_r.
  unfold binary.Read, bind, io.ReadFull. cbn.
  rewrite ?Z.add_0_r. destruct f. reflexivity.
Qed.

(** ** Property records *)

Ltac tag_cases t :=
  let q := fresh "q" in
  destruct t as [|q|q];
  [ | destruct q as [[[q|q|]|[q|q|]|]|[[q|q|]|[q|q|]|]|] | ].

Lemma parse_payload_record (p : PROPERTY.t) (f : File)
      (payload rest : list byte) :
  0 <= offset f ->
  remaining f = payload ++ rest ->
  payload_ok (PROPERTY.DataTypeFlag p) payload ->
  exists f' evs,
    parse_payload p f =
      (expected_payload (PROPERTY.DataTypeFlag p) payload p, f', evs)
    /\ contents f' = contents f
    /\ offset f' = offset f + Z.of_nat (length payload)
    /\ remaining f' = rest.
Proof.
  intros Hoff Hrem Hok.
  unfold parse_payload, expected_payload, payload_ok, spec_payload_width in *.
  tag_cases (PROPERTY.DataTypeFlag p);
    first
      [ (* no case for the tag *)
        subst payload; exists f, []; cbn [length Z.of_nat];
        rewrite Z.add_0_r; auto
      | (* a string *)
        destruct Hok as (l0 & l1 & body & -> & Hl);
        destruct (readLithSTRING_enough f l0 l1 body rest Hoff Hrem Hl)
          as (f' & E & C & O & R);
        unfold bind; rewrite E; cbn [ret skipn length];
        do 2 eexists; split; [reflexivity|];
        repeat split; [assumption | lia | assumption]
      | (* a fixed-size value *)
        match goal with
        | |- context [binary.Read ?ty ?cur] =>
            destruct (Read_enough ty cur f payload rest Hoff Hrem Hok)
              as (f' & E & C & O & R);
            unfold bind; rewrite E; cbn [ret];
            do 2 eexists; split; [reflexivity|];
            rewrite Hok; auto
        end ].
Qed.

(** A whole record at the current offset: name, tag, flags, declared size
    and the payload of the tag, whatever the declared size says. *)
Lemma parse_property_record (f : File) (n0 n1 tag : byte)
      (name flags size payload rest : list byte) :
  0 <= offset f ->
  remaining f =
    (n0 :: n1 :: name) ++ [tag] ++ flags ++ size ++ payload ++ rest ->
  Z.of_nat (length name) = binary.LittleEndian.Uint16 [n0; n1] ->
  length flags = 4%nat ->
  length size = 2%nat ->
  payload_ok (byte_val tag) payload ->
  exists f' evs,
    parse_property f =
      (expected_property name tag flags size payload, f', evs)
    /\ contents f' = contents f
    /\ offset f' =
         offset f + (2 + Z.of_nat (length name)) + 1 + 4 + 2
         + Z.of_nat (length payload)
    /\ remaining f' = rest.
Proof.
  intros Hoff Hrem Hname Hflags Hsize Hok.
  unfold parse_property, bind.
  cbn [app] in Hrem.
  destruct (readLithSTRING_enough f n0 n1 name _ Hoff Hrem Hname)
    as (f1 & E1 & C1 & O1 & R1).
  rewrite E1.
  destruct (Read_enough binary.t_uint8 0 f1 [tag] _ ltac:(lia) R1 eq_refl)
    as (f2 & E2 & C2 & O2 & R2).
  change (PROPERTY.DataTypeFlag (PROPERTY.set_Name _ PROPERTY.zero)) with 0.
  rewrite E2.
  destruct (Read_enough binary.t_uint32 0 f2 flags _ ltac:(lia) R2 Hflags)
    as (f3 & E3 & C3 & O3 & R3).
  change (PROPERTY.PropertyFlags
            (PROPERTY.set_DataTypeFlag _ (PROPERTY.set_Name _ PROPERTY.zero)))
    with 0.
  rewrite E3.
  destruct (Read_enough binary.t_uint16 0 f3 size _ ltac:(lia) R3 Hsize)
    as (f4 & E4 & C4 & O4 & R4).
  change (PROPERTY.DataSize
            (PROPERTY.set_PropertyFlags _
               (PROPERTY.set_DataTypeFlag _
                  (PROPERTY.set_Name _ PROPERTY.zero))))
    with 0.
  rewrite E4.
  cbn [binary.value binary.t_uint8 binary.t_uint16 binary.t_uint32 nth
       binary.dataSize] in *.
  match goal with
  | |- context [parse_payload ?p f4] =>
      destruct (parse_payload_record p f4 payload rest ltac:(lia) R4 Hok)
        as (f5 & l5 & E5 & C5 & O5 & R5);
      rewrite E5
  end.
  cbn [fmt.Println ret].
  do 2 eexists. split; [reflexivity|].
  repeat split; [congruence | lia | assumption].
Qed.

(** ** The header on a file that holds all of it *)

Lemma parse_world_header_whole (hdr rest : list byte) :
  length hdr = 60%nat ->
  parse_world_header (os.Open (hdr ++ rest)) =
    (header_of_bytes hdr,
     mkFile (hdr ++ rest) 60,
     repeat (FileRead 4 4) 15 ++ [Println [a_HEADER (header_of_bytes hdr)]]).
Proof.
  intros Hlen.
  do 60 (destruct hdr as [|? hdr]; [discriminate Hlen|]).
  destruct hdr; [|discriminate Hlen].
  reflexivity.
Qed.

(** ** What a computation prints, whatever the file *)

Lemma prints_ret {A} (a : A) (Q : A -> list event -> Prop) :
  Q a [] -> prints (ret a) Q.
Proof. intros H f. exact H. Qed.

Lemma prints_bind {A B} (m : M A) (k : A -> M B)
      (P : A -> list event -> Prop) (Q : B -> list event -> Prop) :
  prints m P ->
  (forall a l1, P a l1 -> prints (k a) (fun b l2 => Q b (l1 ++ l2))) ->
  prints (bind m k) Q.
Proof.
  intros Hm Hk f. unfold bind.
  specialize (Hm f). unfold result, events in *.
  destruct (m f) as [[a f1] l1]. cbn [fst snd] in Hm.
  specialize (Hk a _ Hm f1). unfold result, events in Hk.
  destruct (k a f1) as [[b f2] l2]. cbn [fst snd] in *.
  rewrite stdout_app. exact Hk.
Qed.

Lemma prints_Read {A} (ty : binary.layout A) (cur : A) :
  prints (binary.Read ty cur) (fun _ l => l = []).
Proof.
  intros f. unfold binary.Read, bind, io.ReadFull, events.
  destruct (Nat.eqb _ _), (Nat.eqb _ _); try destruct (Nat.eqb _ _);
    reflexivity.
Qed.

Lemma prints_Println (a : list any) :
  prints (fmt.Println a) (fun _ l => l = [Println a]).
Proof. intros f. reflexivity. Qed.

Ltac silent_read :=
  eapply prints_bind;
  [ apply prints_Read
  | let v := fresh "v" in let e := fresh "e" in
    intros [v e] ? ->; cbn [app] ].









Lemma prints_parse_world_header :
  prints parse_world_header (fun h l => l = [Println [a_HEADER h]]).
Proof.
  unfold parse_world_header. do 15 silent_read.
  eapply prints_bind; [apply prints_Println|]. intros _ ? ->.
  apply prints_ret. reflexivity.
Qed.

(** ** Successive decodes are taken in file order *)

Lemma successive_S_result {A} (step : M A) (n : nat) (f : File) :
  result (successive (S n) step f) =
  result (step f) :: result (successive n step (file_after (step f))).
Proof.
  cbn [successive]. unfold bind, result, file_after, ret.
  destruct (step f) as [[a f1] l1]. cbn [fst snd].
  destruct (successive n step f1) as [[l f2] l2]. reflexivity.
Qed.

Lemma successive_S_file {A} (step : M A) (n : nat) (f : File) :
  file_after (successive (S n) step f) =
  file_after (successive n step (file_after (step f))).
Proof.
  cbn [successive]. unfold bind, result, file_after, ret.
  destruct (step f) as [[a f1] l1]. cbn [fst snd].
  destruct (successive n step f1) as [[l f2] l2]. reflexivity.
Qed.

Lemma successive_snoc_file {A} (step : M A) (n : nat) (f : File) :
  file_after (successive (S n) step f) =
  file_after (step (file_after (successive n step f))).
Proof.
  revert f. induction n as [|n IH]; intros f.
  - rewrite successive_S_file. reflexivity.
  - rewrite successive_S_file, IH, (successive_S_file step n f).
    reflexivity.
Qed.

Lemma successive_nth {A} (step : M A) (n i : nat) (f : File) :
  (i < n)%nat ->
  nth_error (result (successive n step f)) i =
  Some (result (step (file_after (successive i step f)))).
Proof.
  revert f i. induction n as [|n IH]; intros f i Hi; [lia|].
  rewrite successive_S_result. destruct i as [|i].
  - reflexivity.
  - cbn [nth_error]. rewrite IH by lia. rewrite successive_S_file.
    reflexivity.
Qed.

Lemma successive_in_order {A} (step : M A) (n : nat) (f : File) :
  sequential step ->
  offset (file_after (successive n step f)) <=
  offset (file_after (successive (S n) step f)).
Proof.
  intros Hs. rewrite successive_snoc_file.
  apply (Hs (file_after (successive n step f))).
Qed.

(** ** The reads a computation asks for, whatever the file *)

Lemma asks_ret {A} (a : A) : asks (ret a) [].
Proof. intros f. reflexivity. Qed.

Lemma asks_bind {A B} (m : M A) (k : A -> M B) (l1 l2 : list nat) :
  asks m l1 -> (forall a, asks (k a) l2) -> asks (bind m k) (l1 ++ l2).
Proof.
  intros Hm Hk f. unfold bind, events.
  specialize (Hm f). unfold events in Hm.
  destruct (m f) as [[a f1] l]. cbn [snd] in Hm.
  specialize (Hk a f1). unfold events in Hk.
  destruct (k a f1) as [[b f2] l']. cbn [snd] in *.
  unfold requests in *. rewrite flat_map_app. congruence.
Qed.

Lemma asks_Read_uint32 (cur : uint32) :
  asks (binary.Read binary.t_uint32 cur) [4%nat].
Proof.
  intros f. unfold binary.Read, bind, io.ReadFull, events.
  cbn [binary.dataSize binary.t_uint32 Nat.eqb fst snd].
  destruct (Nat.eqb _ 4); try destruct (Nat.eqb _ 0); reflexivity.
Qed.

(** The header is always asked for as fifteen reads of four bytes. *)
Lemma asks_parse_world_header :
  asks parse_world_header (repeat 4%nat 15).
Proof.
  unfold parse_world_header.
  do 15 (apply (asks_bind _ _ [4%nat]); [apply asks_Read_uint32|];
         intros [? ?]).
  apply (asks_bind _ _ [] []); [intros f; reflexivity|].
  intros _. apply asks_ret.
Qed.

(** ** [main] always returns *)

Lemma main_returns (bs : list byte) :
  exists h w, result (run_main bs) = Return h w.
Proof.
  pose proof (main_dispatch bs) as E. cbv zeta in E. rewrite E.
  do 2 eexists. reflexivity.
Qed.

Lemma main_never_fails (bs : list byte) : ~ failed (result (run_main bs)).
Proof.
  destruct (main_returns bs) as (h & w & E). rewrite E. exact (fun x => x).
Qed.

(** The file operations of a run, block by block. *)
Lemma main_file_ops (bs : list byte) :
  let r0 := parse_world_header (os.Open bs) in
  let h := result r0 in
  let r1 := parse_world_objects WORLD.zero
              (mkFile bs (HEADER.ObjectDataPos h)) in
  let r2 := parse_prefix 0 (mkFile bs (HEADER.BlindObjectDataPos h)) in
  let r3 := parse_prefix 0 (mkFile bs (HEADER.CollisionDataPos h)) in
  let r4 := parse_prefix 0 (mkFile bs (HEADER.ParticleBlockerDataPos h)) in
  file_ops (events (run_main bs)) =
    file_ops (events r0) ++
    FileSeek (HEADER.ObjectDataPos h) :: file_ops (events r1) ++
    FileSeek (HEADER.BlindObjectDataPos h) :: file_ops (events r2) ++
    FileSeek (HEADER.LightgridPos h) ::
    FileSeek (HEADER.CollisionDataPos h) :: file_ops (events r3) ++
    FileSeek (HEADER.ParticleBlockerDataPos h) :: file_ops (events r4) ++
    [FileSeek (HEADER.RenderDataPos h)].
Proof.
  cbv zeta. pose proof (main_dispatch bs) as E. cbv zeta in E.
  rewrite E. cbn [events snd]. rewrite !file_ops_app. reflexivity.
Qed.

Lemma seeks_file_ops (l : list event) : seeks (file_ops l) = seeks l.
Proof.
  unfold seeks, file_ops. induction l as [|e l IH]; [reflexivity|].
  destruct e; simpl; rewrite ?IH; reflexivity.
Qed.

Lemma seeks_cons_seek (o : Z) (l : list event) :
  seeks (FileSeek o :: l) = o :: seeks l.
Proof. reflexivity. Qed.

Ltac app_normal :=
  repeat first [rewrite <- app_assoc | rewrite <- app_comm_cons].

Lemma successive_decoded_in_file_order {A} (step : M A) (n : nat) (f : File) :
  sequential step ->
  decoded_in_file_order step n f (result (successive n step f)).
Proof.
  intros Hs i Hi. split.
  - apply successive_nth. exact Hi.
  - apply successive_in_order. exact Hs.
Qed.

Lemma parse_world_object_ends (g : File) :
  file_after (parse_world_object g) = object_end g.
Proof. rewrite parse_world_object_eq. reflexivity. Qed.

Lemma successive_objects_file (i : nat) (g : File) :
  file_after (successive i parse_world_object g) = object_start i g.
Proof.
  induction i as [|i IH].
  - reflexivity.
  - rewrite successive_snoc_file, IH. apply parse_world_object_ends.
Qed.

Lemma object_start_in_file (i : nat) (g : File) :
  contents (object_start i g) = contents g
  /\ offset g <= offset (object_start i g).
Proof.
  rewrite <- successive_objects_file.
  destruct (sequential_successive parse_world_object i
              sequential_parse_world_object g) as (C & O & _).
  auto.
Qed.

Lemma object_count_position_in_file (g : File) :
  contents (object_count_position g) = contents g
  /\ offset g <= offset (object_count_position g).
Proof.
  unfold object_count_position.
  destruct (sequential_Read binary.t_uint16 0 g) as (C1 & O1 & _).
  destruct (sequential_readLithSTRING
              (file_after (binary.Read binary.t_uint16 0 g)))
    as (C2 & O2 & _).
  split; [congruence | lia].
Qed.

(** A [uint32] read where its four bytes exist is the little-endian value
    of those bytes. *)
Lemma Read_uint32_at (bs : list byte) (off : Z) :
  0 <= off ->
  off + 4 <= Z.of_nat (length bs) ->
  fst (result (binary.Read binary.t_uint32 0 (mkFile bs off))) =
  u32_at (Z.to_nat off) bs.
Proof.
  intros H0 H4.
  destruct (Read_enough binary.t_uint32 0 (mkFile bs off)
              (firstn 4 (skipn (Z.to_nat off) bs))
              (skipn 4 (skipn (Z.to_nat off) bs)))
    as (f' & E & _).
  - exact H0.
  - symmetry. apply firstn_skipn.
  - rewrite length_firstn, length_skipn. cbn [binary.dataSize binary.t_uint32].
    lia.
  - rewrite E. cbn [result fst binary.value binary.t_uint32].
    unfold u32_at, binary.LittleEndian.Uint32.
    rewrite !nth_firstn. reflexivity.
Qed.

(** A [uint32] read at any offset finds the prefix there, or nothing. *)
Lemma Read_uint32_prefix (bs : list byte) (off : Z) :
  0 <= off ->
  fst (result (binary.Read binary.t_uint32 0 (mkFile bs off))) =
  prefix_at bs off.
Proof.
  intros Hoff. unfold prefix_at.
  destruct (Z.leb_spec (off + 4) (Z.of_nat (length bs))) as [Hle|Hgt].
  - apply Read_uint32_at; assumption.
  - destruct (Read_short binary.t_uint32 0 (mkFile bs off)) as (e & E).
    + unfold remaining. cbn [contents offset binary.dataSize binary.t_uint32].
      rewrite length_skipn. lia.
    + rewrite E. reflexivity.
Qed.

Lemma object_property_count_prefix (g : File) :
  0 <= offset g ->
  object_property_count g =
  prefix_at (contents g) (offset (object_count_position g)).
Proof.
  intros H0. unfold object_property_count.
  destruct (object_count_position_in_file g) as [C O].
  rewrite <- C.
  destruct (object_count_position g) as [c o]. cbn [contents offset] in *.
  apply Read_uint32_prefix. lia.
Qed.

(** Every object of a decoded list lies where the reads put it. *)
Lemma successive_objects_laid_out (n : nat) (g0 : File) (i : nat) :
  0 <= offset g0 ->
  (i < n)%nat ->
  object_laid_out (contents g0) g0
    (result (successive n parse_world_object g0)) i.
Proof.
  intros H0 Hi. unfold object_laid_out. cbv zeta.
  destruct (object_start_in_file i g0) as [Cg Og].
  set (g := object_start i g0) in *.
  exists (result (parse_world_object g)).
  split.
  { rewrite (successive_nth parse_world_object n i g0 Hi).
    rewrite successive_objects_file. reflexivity. }
  rewrite parse_world_object_eq.
  cbn [result fst WORLDOBJECT.PropertiesLen WORLDOBJECT.Properties].
  split; [reflexivity|].
  split.
  { rewrite <- Cg. apply object_property_count_prefix. lia. }
  pose proof (returns_successive parse_property (fun _ => True)
                (Z.to_nat (object_property_count g))
                (fun f => I) (object_properties_start g)) as [Hl _].
  split; [exact Hl|].
  split.
  { apply successive_decoded_in_file_order. apply sequential_parse_property. }
  split.
  { apply object_count_position_in_file. }
  cbn [object_start]. fold g. unfold object_end.
  destruct (sequential_successive parse_property
              (Z.to_nat (object_property_count g))
              sequential_parse_property (object_properties_start g))
    as (_ & O & _).
  exact O.
Qed.

(** ** Reads at the end of the file *)

Lemma remaining_past_end (bs : list byte) (off : Z) :
  Z.of_nat (length bs) <= off -> remaining (mkFile bs off) = [].
Proof.
  intros H. unfold remaining. cbn [contents offset].
  apply skipn_all2. lia.
Qed.

Lemma Read_eof {A} (ty : binary.layout A) (cur : A) (f : File) :
  remaining f = [] ->
  (0 < binary.dataSize ty cur)%nat ->
  exists e,
    binary.Read ty cur f =
      ((cur, Some e), f, [FileRead (binary.dataSize ty cur) 0]).
Proof.
  intros Hrem Hpos.
  destruct (Read_short ty cur f) as (e & E).
  { rewrite Hrem. exact Hpos. }
  exists e. rewrite E, Hrem. cbn [length Z.of_nat].
  rewrite Z.add_0_r. destruct f. reflexivity.
Qed.

(** At the end of the file the payload switch leaves the property as it is
    (for a string, with the empty string). *)
Lemma parse_payload_eof (p : PROPERTY.t) (f : File) :
  remaining f = [] ->
  PROPERTY.DataString p = EmptyString ->
  exists evs, parse_payload p f = (p, f, evs).
Proof.
  intros Hrem Hstr. unfold parse_payload.
  tag_cases (PROPERTY.DataTypeFlag p);
    first
      [ eexists; reflexivity
      | unfold bind; rewrite (readLithSTRING_eof f Hrem); cbn [ret];
        eexists; rewrite <- Hstr; destruct p; reflexivity
      | match goal with
        | |- context [binary.Read ?ty ?cur] =>
            destruct (Read_eof ty cur f Hrem ltac:(cbn; lia)) as (e & E);
            unfold bind; rewrite E; cbn [ret];
            eexists; destruct p; reflexivity
        end ].
Qed.

(** ** Tags without a case *)

Lemma unknown_tag_no_payload (tag : Z) :
  ~ known_tag tag ->
  payload_ok tag []
  /\ forall payload p, expected_payload tag payload p = p.
Proof.
  intros Hun. unfold known_tag in Hun.
  unfold payload_ok, expected_payload, spec_payload_width.
  tag_cases tag;
    first [ split; [reflexivity | reflexivity]
          | exfalso; apply Hun; cbn; tauto ].
Qed.

(** The declared size is stored in [DataSize] and nowhere else. *)
Lemma expected_property_size (name : list byte) (tag : byte)
      (flags size size' payload : list byte) :
  expected_property name tag flags size' payload =
  PROPERTY.set_DataSize (binary.LittleEndian.Uint16 size')
    (expected_property name tag flags size payload).
Proof.
  unfold expected_property, expected_payload.
  tag_cases (byte_val tag); reflexivity.
Qed.

(** ** Little-endian values as sums *)

Lemma lor_shiftl_add (a b k : Z) :
  0 <= k -> 0 <= a < 2 ^ k -> Z.lor a (Z.shiftl b k) = a + b * 2 ^ k.
Proof.
  intros Hk Ha.
  assert (Hland : Z.land a (Z.shiftl b k) = 0).
  { apply Z.bits_inj'. intros n Hn.
    rewrite Z.land_spec, Z.bits_0.
    destruct (Z.lt_ge_cases n k) as [Hlt|Hge].
    - rewrite (Z.shiftl_spec_low b k n Hlt). apply andb_false_r.
    - rewrite <- (Z.mod_small a (2 ^ k)) by lia.
      rewrite Z.mod_pow2_bits_high by lia. reflexivity. }
  rewrite <- Z.lxor_lor by exact Hland.
  rewrite <- Z.add_nocarry_lxor by exact Hland.
  rewrite Z.shiftl_mul_pow2 by exact Hk. reflexivity.
Qed.

Lemma Uint16_sum (bs : list byte) :
  binary.LittleEndian.Uint16 bs =
  byte_val (nth 0 bs x00) + 256 * byte_val (nth 1 bs x00).
Proof.
  unfold binary.LittleEndian.Uint16.
  pose proof (byte_val_range (nth 0 bs x00)).
  rewrite lor_shiftl_add by (change (2 ^ 8) with 256; lia).
  change (2 ^ 8) with 256. lia.
Qed.

Lemma Uint32_sum (bs : list byte) :
  binary.LittleEndian.Uint32 bs =
  byte_val (nth 0 bs x00) + 256 * byte_val (nth 1 bs x00)
  + 65536 * byte_val (nth 2 bs x00) + 16777216 * byte_val (nth 3 bs x00).
Proof.
  unfold binary.LittleEndian.Uint32.
  pose proof (byte_val_range (nth 0 bs x00)).
  pose proof (byte_val_range (nth 1 bs x00)).
  pose proof (byte_val_range (nth 2 bs x00)).
  rewrite (lor_shiftl_add _ _ 8) by (change (2 ^ 8) with 256; lia).
  rewrite (lor_shiftl_add _ _ 16)
    by (change (2 ^ 8) with 256; change (2 ^ 16) with 65536; lia).
  rewrite (lor_shiftl_add _ _ 24)
    by (change (2 ^ 8) with 256; change (2 ^ 16) with 65536;
        change (2 ^ 24) with 16777216; lia).
  change (2 ^ 8) with 256; change (2 ^ 16) with 65536;
    change (2 ^ 24) with 16777216. lia.
Qed.

(** * The claims *)

(** C1. [main] decodes the header first, from offset 0, as fifteen reads of
    four bytes; then, for the six header offsets in the order objects, blind
    objects, light grid, collision, particle blocker, render data, it seeks
    to the stored offset and runs the block of that section on the file
    positioned there, storing the result in [world] (the light grid and
    render data blocks are empty). The file operations of a run are those of
    the header, then, per section, the seek followed by the operations of
    its block; the blocks themselves perform no seek. *)
Theorem C1_dispatch_in_header_order (bs : list byte) :
  let r0 := parse_world_header (os.Open bs) in
  let h := result r0 in
  let r1 := parse_world_objects WORLD.zero
              (mkFile bs (HEADER.ObjectDataPos h)) in
  let r2 := parse_prefix 0 (mkFile bs (HEADER.BlindObjectDataPos h)) in
  let r3 := parse_prefix 0 (mkFile bs (HEADER.CollisionDataPos h)) in
  let r4 := parse_prefix 0 (mkFile bs (HEADER.ParticleBlockerDataPos h)) in
  exists w,
    result (run_main bs) = Return h w
    /\ requests (events r0) = repeat 4%nat 15
    /\ file_ops (events (run_main bs)) =
         file_ops (events r0) ++
         FileSeek (HEADER.ObjectDataPos h) :: file_ops (events r1) ++
         FileSeek (HEADER.BlindObjectDataPos h) :: file_ops (events r2) ++
         FileSeek (HEADER.LightgridPos h) ::
         FileSeek (HEADER.CollisionDataPos h) :: file_ops (events r3) ++
         FileSeek (HEADER.ParticleBlockerDataPos h) :: file_ops (events r4) ++
         [FileSeek (HEADER.RenderDataPos h)]
    /\ seeks (events (run_main bs)) =
         [HEADER.ObjectDataPos h; HEADER.BlindObjectDataPos h;
          HEADER.LightgridPos h; HEADER.CollisionDataPos h;
          HEADER.ParticleBlockerDataPos h; HEADER.RenderDataPos h]
    /\ (seeks (events r0) = [] /\ seeks (events r1) = []
        /\ seeks (events r2) = [] /\ seeks (events r3) = []
        /\ seeks (events r4) = [])
    /\ WORLD.WorldObjectsLen w = WORLD.WorldObjectsLen (result r1)
    /\ WORLD.WorldObjects w = WORLD.WorldObjects (result r1)
    /\ WORLD.BlindObjectDataSize w = result r2
    /\ WORLD.PhysicsDataLen w = result r3
    /\ WORLD.ParticleBlockerDataLen w = result r4.
Proof.
  cbv zeta. pose proof (main_dispatch bs) as E. cbv zeta in E.
  set (h := result (parse_world_header (os.Open bs))) in *.
  destruct (sequential_parse_world_header (os.Open bs)) as (_ & _ & S0).
  destruct (sequential_parse_world_objects WORLD.zero
              (mkFile bs (HEADER.ObjectDataPos h))) as (_ & _ & S1).
  destruct (sequential_parse_prefix 0
              (mkFile bs (HEADER.BlindObjectDataPos h))) as (_ & _ & S2).
  destruct (sequential_parse_prefix 0
              (mkFile bs (HEADER.CollisionDataPos h))) as (_ & _ & S3).
  destruct (sequential_parse_prefix 0
              (mkFile bs (HEADER.ParticleBlockerDataPos h))) as (_ & _ & S4).
  rewrite E. eexists. split; [reflexivity|].
  split; [apply asks_parse_world_header|].
  cbn [events snd].
  split.
  { rewrite !file_ops_app. reflexivity. }
  split.
  { rewrite !seeks_app, S0, S1, S2, S3, S4. reflexivity. }
  split; [auto|].
  repeat split.
Qed.

(** C2 as stated fails: on the file cut after the type tag the run does not
    fail; it returns an object whose property has the name and tag read and
    zero for the flags, the declared size and the payload that are
    missing. *)
Lemma C2_counterexample :
  exists h w,
    result (run_main truncated_file) = Return h w
    /\ ~ failed (result (run_main truncated_file))
    /\ WORLD.WorldObjects w =
         [WORLDOBJECT.mk 9 "A" 1
            [PROPERTY.mk "n" 3 0 0 EmptyString VEC3.zero COLOR.zero 0 false 0
               QUATERNION.zero []]].
Proof.
  do 2 eexists. split; [vm_compute; reflexivity|].
  split; [vm_compute; exact (fun x => x)|]. reflexivity.
Qed.

(** C2, as the code has it. A record cut after its type tag decodes without
    any failure to the name and tag read, with flags, declared size and
    payload left at zero, and the offset is at the end of the file; [main]
    never fails, whatever the file. A read never yields more than the bytes
    that remain in the source, and one that finds too few leaves its
    destination as it was. *)
Theorem C2_truncated_property_is_zero_filled (f : File) (n0 n1 tag : byte)
        (name : list byte) :
  0 <= offset f ->
  remaining f = (n0 :: n1 :: name) ++ [tag] ->
  Z.of_nat (length name) = binary.LittleEndian.Uint16 [n0; n1] ->
  (exists f' evs,
     parse_property f =
       (PROPERTY.mk (string_of_list_byte name) (byte_val tag) 0 0
          EmptyString VEC3.zero COLOR.zero 0 false 0 QUATERNION.zero [],
        f', evs)
     /\ remaining f' = []
     /\ offset f' = offset f + 2 + Z.of_nat (length name) + 1)
  /\ (forall bs, ~ failed (result (run_main bs)))
  /\ (forall n g,
        fst (result (io.ReadFull n g)) = firstn n (remaining g))
  /\ (forall A (ty : binary.layout A) (cur : A) g,
        (length (remaining g) < binary.dataSize ty cur)%nat ->
        fst (result (binary.Read ty cur g)) = cur).
Proof.
  intros Hoff Hrem Hname.
  split; [|split; [exact main_never_fails|split]].
  - unfold parse_property, bind. cbn [app] in Hrem.
    destruct (readLithSTRING_enough f n0 n1 name _ Hoff Hrem Hname)
      as (f1 & E1 & C1 & O1 & R1).
    rewrite E1.
    destruct (Read_enough binary.t_uint8 0 f1 [tag] [] ltac:(lia) R1 eq_refl)
      as (f2 & E2 & C2 & O2 & R2).
    change (PROPERTY.DataTypeFlag (PROPERTY.set_Name _ PROPERTY.zero)) with 0.
    rewrite E2.
    destruct (Read_eof binary.t_uint32 0 f2 R2 ltac:(cbn; lia)) as (e3 & E3).
    change (PROPERTY.PropertyFlags
              (PROPERTY.set_DataTypeFlag _
                 (PROPERTY.set_Name _ PROPERTY.zero)))
      with 0.
    rewrite E3.
    destruct (Read_eof binary.t_uint16 0 f2 R2 ltac:(cbn; lia)) as (e4 & E4).
    change (PROPERTY.DataSize
              (PROPERTY.set_PropertyFlags _
                 (PROPERTY.set_DataTypeFlag _
                    (PROPERTY.set_Name _ PROPERTY.zero))))
      with 0.
    rewrite E4.
    match goal with
    | |- context [parse_payload ?p f2] =>
        destruct (parse_payload_eof p f2 R2 eq_refl) as (l5 & E5);
        rewrite E5
    end.
    cbn [fmt.Println ret binary.value binary.t_uint8 nth binary.dataSize] in *.
    do 2 eexists. split; [reflexivity|]. split; [exact R2|].
    clear - O1 O2. lia.
  - intros n g. reflexivity.
  - intros A ty cur g Hlt.
    destruct (Read_short ty cur g Hlt) as (e & E). rewrite E. reflexivity.
Qed.

(** The record "n" with tag 3, cut after the tag. *)
Lemma C2_witness :
  exists f' evs,
    parse_property (mkFile [x01; x00; x6e; x03] 0) =
      (PROPERTY.mk "n" 3 0 0 EmptyString VEC3.zero COLOR.zero 0 false 0
         QUATERNION.zero [], f', evs)
    /\ remaining f' = []
    /\ offset f' = 4.
Proof.
  destruct (C2_truncated_property_is_zero_filled
              (mkFile [x01; x00; x6e; x03] 0) x01 x00 x03 [x6e])
    as [(f' & evs & E & R & O) _].
  - simpl. lia.
  - reflexivity.
  - reflexivity.
  - exists f', evs. split; [exact E|]. split; [exact R|]. exact O.
Defined.

(** C3 as stated fails: in this file the first property has tag 4; the run
    does not fail, keeps that property with an empty payload and decodes the
    next one from the byte after its declared size. *)
Lemma C3_counterexample :
  exists h w,
    result (run_main unknown_tag_file) = Return h w
    /\ ~ failed (result (run_main unknown_tag_file))
    /\ WORLD.WorldObjects w =
         [WORLDOBJECT.mk 9 "A" 2
            [PROPERTY.mk "n" 4 5 4 EmptyString VEC3.zero COLOR.zero 0 false 0
               QUATERNION.zero [];
             PROPERTY.mk "m" 5 0 1 EmptyString VEC3.zero COLOR.zero 0 true 0
               QUATERNION.zero []]].
Proof.
  do 2 eexists. split; [vm_compute; reflexivity|].
  split; [vm_compute; exact (fun x => x)|]. reflexivity.
Qed.

(** C3, as the code has it. A record whose tag has no case is decoded with
    no payload: name, tag, flags and declared size are read, every payload
    field stays zero, and the offset is left right after the declared size,
    where the next decode starts. There is no error for it: [main] never
    fails. *)
Theorem C3_unknown_tag_reads_no_payload (f : File) (n0 n1 tag : byte)
        (name flags size rest : list byte) :
  0 <= offset f ->
  remaining f = (n0 :: n1 :: name) ++ [tag] ++ flags ++ size ++ rest ->
  Z.of_nat (length name) = binary.LittleEndian.Uint16 [n0; n1] ->
  length flags = 4%nat ->
  length size = 2%nat ->
  ~ known_tag (byte_val tag) ->
  (exists f' evs,
     parse_property f =
       (PROPERTY.mk (string_of_list_byte name) (byte_val tag)
          (binary.LittleEndian.Uint32 flags)
          (binary.LittleEndian.Uint16 size)
          EmptyString VEC3.zero COLOR.zero 0 false 0 QUATERNION.zero [],
        f', evs)
     /\ remaining f' = rest
     /\ offset f' = offset f + (2 + Z.of_nat (length name)) + 1 + 4 + 2)
  /\ forall bs, ~ failed (result (run_main bs)).
Proof.
  intros Hoff Hrem Hname Hflags Hsize Hun.
  split; [|exact main_never_fails].
  destruct (unknown_tag_no_payload _ Hun) as [Hok Hexp].
  destruct (parse_property_record f n0 n1 tag name flags size [] rest
              Hoff Hrem Hname Hflags Hsize Hok)
    as (f' & evs & E & _ & O & R).
  exists f', evs. unfold expected_property in E. rewrite Hexp in E.
  cbn [length Z.of_nat] in O.
  repeat split; [exact E | exact R | lia].
Qed.

(** The record "n" with tag 4, flags 5 and declared size 4, followed by one
    more byte, which is left unread. *)
Lemma C3_witness :
  exists f' evs,
    parse_property
      (mkFile [x01; x00; x6e; x04; x05; x00; x00; x00; x04; x00; xaa] 0) =
      (PROPERTY.mk "n" 4 5 4 EmptyString VEC3.zero COLOR.zero 0 false 0
         QUATERNION.zero [], f', evs)
    /\ remaining f' = [xaa]
    /\ offset f' = 10.
Proof.
  destruct (C3_unknown_tag_reads_no_payload
              (mkFile [x01; x00; x6e; x04; x05; x00; x00; x00; x04; x00; xaa] 0)
              x01 x00 x04 [x6e] [x05; x00; x00; x00] [x04; x00] [xaa])
    as [(f' & evs & E & R & O) _].
  - simpl. lia.
  - reflexivity.
  - reflexivity.
  - reflexivity.
  - reflexivity.
  - vm_compute. intuition discriminate.
  - exists f', evs. split; [exact E|]. split; [exact R|]. exact O.
Defined.

(** C4 as stated fails: the header of this 60-byte file stores 61 in its six
    offsets. Every seek is done and none fails; the reads that follow find
    nothing, and the run returns the zero document. *)
Lemma C4_counterexample :
  length offsets_past_end_file = 60%nat
  /\ result (run_main offsets_past_end_file) =
       Return (HEADER.mk 1 61 61 61 61 61 61 0 0 [0; 0; 0; 0; 0; 0])
              WORLD.zero
  /\ ~ failed (result (run_main offsets_past_end_file))
  /\ file_ops (events (run_main offsets_past_end_file)) =
       repeat (FileRead 4 4) 15 ++
       [FileSeek 61; FileRead 4 0; FileSeek 61; FileRead 4 0; FileSeek 61;
        FileSeek 61; FileRead 4 0; FileSeek 61; FileRead 4 0; FileSeek 61].
Proof.
  split; [reflexivity|]. split; [vm_compute; reflexivity|].
  split; [vm_compute; exact (fun x => x)|]. vm_compute. reflexivity.
Qed.

(** C4, as the code has it. A seek to a header offset always succeeds, also
    beyond the end of the file: all six seeks of a run are performed and the
    run does not fail. The section entered beyond the end finds no bytes and
    its fields keep their zero values. *)
Theorem C4_seek_past_end_succeeds (bs : list byte) :
  exists h w,
    result (run_main bs) = Return h w
    /\ seeks (events (run_main bs)) =
         [HEADER.ObjectDataPos h; HEADER.BlindObjectDataPos h;
          HEADER.LightgridPos h; HEADER.CollisionDataPos h;
          HEADER.ParticleBlockerDataPos h; HEADER.RenderDataPos h]
    /\ (Z.of_nat (length bs) < HEADER.ObjectDataPos h ->
        WORLD.WorldObjectsLen w = 0 /\ WORLD.WorldObjects w = [])
    /\ (Z.of_nat (length bs) < HEADER.BlindObjectDataPos h ->
        WORLD.BlindObjectDataSize w = 0)
    /\ (Z.of_nat (length bs) < HEADER.CollisionDataPos h ->
        WORLD.PhysicsDataLen w = 0)
    /\ (Z.of_nat (length bs) < HEADER.ParticleBlockerDataPos h ->
        WORLD.ParticleBlockerDataLen w = 0).
Proof.
  pose proof (main_dispatch bs) as E. cbv zeta in E.
  set (h := result (parse_world_header (os.Open bs))) in *.
  destruct (sequential_parse_world_header (os.Open bs)) as (_ & _ & S0).
  destruct (sequential_parse_world_objects WORLD.zero
              (mkFile bs (HEADER.ObjectDataPos h))) as (_ & _ & S1).
  destruct (sequential_parse_prefix 0
              (mkFile bs (HEADER.BlindObjectDataPos h))) as (_ & _ & S2).
  destruct (sequential_parse_prefix 0
              (mkFile bs (HEADER.CollisionDataPos h))) as (_ & _ & S3).
  destruct (sequential_parse_prefix 0
              (mkFile bs (HEADER.ParticleBlockerDataPos h))) as (_ & _ & S4).
  assert (Hprefix : forall off, Z.of_nat (length bs) < off ->
                      result (parse_prefix 0 (mkFile bs off)) = 0).
  { intros off Hlt. unfold parse_prefix, bind.
    destruct (Read_eof binary.t_uint32 0 (mkFile bs off)
                (remaining_past_end bs off ltac:(lia)) ltac:(cbn; lia))
      as (e & Er).
    rewrite Er. reflexivity. }
  rewrite E. clear E. do 2 eexists. split; [reflexivity|].
  cbn [events snd]. split.
  { rewrite !seeks_app, S0, S1, S2, S3, S4. reflexivity. }
  cbn [WORLD.WorldObjectsLen WORLD.WorldObjects WORLD.BlindObjectDataSize
       WORLD.PhysicsDataLen WORLD.ParticleBlockerDataLen
       WORLD.set_ParticleBlockerDataLen WORLD.set_PhysicsDataLen
       WORLD.set_BlindObjectDataSize].
  split; [|auto].
  intros Hlt. rewrite parse_world_objects_eq.
  destruct (Read_eof binary.t_uint32 0 (mkFile bs (HEADER.ObjectDataPos h))
              (remaining_past_end bs (HEADER.ObjectDataPos h) ltac:(lia))
              ltac:(cbn; lia))
    as (e & Er).
  rewrite Er. split; reflexivity.
Qed.

(** C5. For every input the decoded [WorldObjects] has as many elements as
    the [uint32] count read at [ObjectDataPos] (the little-endian value of
    the four bytes there, when the file holds them), and holds them in the
    order in which they lie in the file. Object number [i] is the one
    decoded where object [i-1] ended (the first one right after the count);
    its property count is the [uint32] found in the file after its size and
    type, it has exactly that many properties, and they are the ones decoded
    in file order from the byte after that count on. *)
Theorem C5_counts_and_file_order (bs : list byte) :
  exists h w,
    result (run_main bs) = Return h w
    /\ let rc := binary.Read binary.t_uint32 0
                   (mkFile bs (HEADER.ObjectDataPos h)) in
       let n := Z.to_nat (WORLD.WorldObjectsLen w) in
       WORLD.WorldObjectsLen w = fst (result rc)
       /\ (HEADER.ObjectDataPos h + 4 <= Z.of_nat (length bs) ->
           WORLD.WorldObjectsLen w =
             u32_at (Z.to_nat (HEADER.ObjectDataPos h)) bs)
       /\ length (WORLD.WorldObjects w) = n
       /\ decoded_in_file_order parse_world_object n (file_after rc)
            (WORLD.WorldObjects w)
       /\ forall i, (i < n)%nat ->
            object_laid_out bs (file_after rc) (WORLD.WorldObjects w) i.
Proof.
  pose proof (main_dispatch bs) as E. cbv zeta in E.
  set (h := result (parse_world_header (os.Open bs))) in *.
  rewrite E. clear E. do 2 eexists. split; [reflexivity|].
  cbv zeta. rewrite parse_world_objects_eq.
  cbn [result fst WORLD.WorldObjectsLen WORLD.WorldObjects
       WORLD.set_ParticleBlockerDataLen WORLD.set_PhysicsDataLen
       WORLD.set_BlindObjectDataSize WORLD.set_WorldObjects
       WORLD.set_WorldObjectsLen].
  assert (Hpos : 0 <= HEADER.ObjectDataPos h).
  { pose proof (returns_parse_world_header (os.Open bs)) as Hwf.
    fold h in Hwf. unfold HEADER_wf, is_uint32 in Hwf. lia. }
  split; [reflexivity|].
  split.
  { apply Read_uint32_at. exact Hpos. }
  set (rc := binary.Read binary.t_uint32 0
               (mkFile bs (HEADER.ObjectDataPos h))).
  destruct (sequential_Read binary.t_uint32 0
              (mkFile bs (HEADER.ObjectDataPos h))) as (Crc & Orc & _).
  fold rc in Crc, Orc. cbn [contents offset] in Crc, Orc.
  pose proof (returns_successive parse_world_object (fun _ => True)
                (Z.to_nat (fst (fst (fst rc)))) (fun f => I)
                (file_after rc)) as [Hl _].
  split; [exact Hl|]. split.
  { apply successive_decoded_in_file_order.
    apply sequential_parse_world_object. }
  intros i Hi. rewrite <- Crc.
  apply successive_objects_laid_out; [lia | exact Hi].
Qed.

(** C6. A whole property record with a known tag decodes to its name, tag,
    flags and declared size and to the payload variant of the tag; the
    payload takes the bytes the tag says (a length-prefixed string for 0,
    else 12, 12, 4, 1, 4, 16). A float is stored as the payload has it; a
    member of a Vec3, Color or Quaternion likewise, except that a signalling
    NaN is stored as the quiet NaN of the same sign and payload
    ([stored_member]). The declared size is only stored: with any other two
    bytes in its place the same bytes are consumed and the same property
    results, up to [DataSize]. *)
Theorem C6_payload_selected_by_tag (f : File) (n0 n1 tag : byte)
        (name flags size payload rest : list byte) :
  0 <= offset f ->
  remaining f =
    (n0 :: n1 :: name) ++ [tag] ++ flags ++ size ++ payload ++ rest ->
  Z.of_nat (length name) = binary.LittleEndian.Uint16 [n0; n1] ->
  length flags = 4%nat ->
  length size = 2%nat ->
  known_tag (byte_val tag) ->
  payload_ok (byte_val tag) payload ->
  exists f' evs,
    parse_property f =
      (expected_property name tag flags size payload, f', evs)
    /\ remaining f' = rest
    /\ offset f' =
         offset f + (2 + Z.of_nat (length name)) + 1 + 4 + 2
         + Z.of_nat (length payload)
    /\ forall size' f2,
         length size' = 2%nat ->
         0 <= offset f2 ->
         remaining f2 =
           (n0 :: n1 :: name) ++ [tag] ++ flags ++ size' ++ payload ++ rest ->
         exists f2' evs2,
           parse_property f2 =
             (PROPERTY.set_DataSize (binary.LittleEndian.Uint16 size')
                (expected_property name tag flags size payload),
              f2', evs2)
           /\ remaining f2' = rest
           /\ offset f2' - offset f2 = offset f' - offset f.
Proof.
  intros Hoff Hrem Hname Hflags Hsize _ Hok.
  destruct (parse_property_record f n0 n1 tag name flags size payload rest
              Hoff Hrem Hname Hflags Hsize Hok)
    as (f' & evs & E & _ & O & R).
  exists f', evs. repeat split; try assumption.
  intros size' f2 Hsize' Hoff2 Hrem2.
  destruct (parse_property_record f2 n0 n1 tag name flags size' payload rest
              Hoff2 Hrem2 Hname Hflags Hsize' Hok)
    as (f2' & evs2 & E2 & _ & O2 & R2).
  exists f2', evs2.
  rewrite <- (expected_property_size name tag flags size size' payload).
  repeat split; try assumption. lia.
Qed.

(** The float property of the example file, whose declared size is 9. *)
Lemma C6_witness :
  exists f' evs,
    parse_property (mkFile example_property 0) =
      (PROPERTY.mk "n" 3 5 9 EmptyString VEC3.zero COLOR.zero 1065353216
         false 0 QUATERNION.zero [], f', evs)
    /\ remaining f' = []
    /\ offset f' = 14.
Proof.
  destruct (C6_payload_selected_by_tag (mkFile example_property 0)
              x01 x00 x03 [x6e] [x05; x00; x00; x00] [x09; x00]
              [x00; x00; x80; x3f] [])
    as (f' & evs & E & R & O & _).
  - simpl. lia.
  - reflexivity.
  - reflexivity.
  - reflexivity.
  - reflexivity.
  - vm_compute. tauto.
  - reflexivity.
  - exists f', evs. split; [exact E|]. split; [exact R|]. exact O.
Defined.

(** C7 as stated fails: the string announces five bytes and the file holds
    two. Nothing fails: the decoder returns five zero bytes as the text, and
    a run whose object type is cut this way returns normally with that
    text. *)
Lemma C7_counterexample :
  readLithSTRING (os.Open short_string_file) =
    (string_of_list_byte [x00; x00; x00; x00; x00],
     mkFile short_string_file 4,
     [FileRead 2 2; FileRead 5 2])
  /\ exists h w,
       result (run_main short_type_file) = Return h w
       /\ ~ failed (result (run_main short_type_file))
       /\ WORLD.WorldObjects w =
            [WORLDOBJECT.mk 9 (string_of_list_byte [x00; x00; x00; x00; x00])
               0 []].
Proof.
  split; [reflexivity|].
  do 2 eexists. split; [vm_compute; reflexivity|].
  split; [vm_compute; exact (fun x => x)|]. reflexivity.
Qed.

(** C7, as the code has it. The decoder reads a little-endian [uint16]
    length [n] and then [n] bytes, which become the text byte for byte; for
    [n = 0] only the two length bytes are consumed and the text is empty.
    When fewer than [n] bytes remain nothing fails: the text is [n] zero
    bytes and the offset is at the end of the file. *)
Theorem C7_length_prefixed_string (f : File) (l0 l1 : byte)
        (tail : list byte) :
  0 <= offset f ->
  remaining f = l0 :: l1 :: tail ->
  let n := Z.to_nat (binary.LittleEndian.Uint16 [l0; l1]) in
  binary.LittleEndian.Uint16 [l0; l1] = byte_val l0 + 256 * byte_val l1
  /\ ((n <= length tail)%nat ->
      exists s,
        readLithSTRING f =
          (s, mkFile (contents f) (offset f + 2 + Z.of_nat n), string_reads n)
        /\ list_byte_of_string s = firstn n tail)
  /\ (n = 0%nat ->
      readLithSTRING f =
        (EmptyString, mkFile (contents f) (offset f + 2), [FileRead 2 2]))
  /\ ((length tail < n)%nat ->
      readLithSTRING f =
        (string_of_list_byte (repeat x00 n),
         mkFile (contents f) (offset f + 2 + Z.of_nat (length tail)),
         [FileRead 2 2; FileRead n (length tail)])).
Proof.
  intros Hoff Hrem n.
  pose proof (Uint16_range [l0; l1]) as Hr. unfold is_uint16 in Hr.
  assert (Hwhole : (n <= length tail)%nat ->
            readLithSTRING f =
              (string_of_list_byte (firstn n tail),
               mkFile (contents f) (offset f + 2 + Z.of_nat n),
               string_reads n)).
  { intros Hle.
    assert (Hlen : length (firstn n tail) = n)
      by (rewrite length_firstn; lia).
    destruct (readLithSTRING_enough f l0 l1 (firstn n tail) (skipn n tail))
      as (f' & E & C & O & _); auto.
    - rewrite firstn_skipn. exact Hrem.
    - rewrite Hlen. unfold n. lia.
    - rewrite Hlen in E, O. rewrite E.
      destruct f' as [c o]. cbn [contents offset] in *.
      subst c o. reflexivity. }
  split; [apply (Uint16_sum [l0; l1])|]. split; [|split].
  - intros Hle. eexists. split; [apply Hwhole; exact Hle|].
    apply list_byte_of_string_of_list_byte.
  - intros Hz. rewrite Hwhole by lia. rewrite Hz.
    cbn [firstn Z.of_nat]. rewrite Z.add_0_r. reflexivity.
  - intros Hlt.
    destruct (readLithSTRING_short f l0 l1 tail Hoff Hrem ltac:(unfold n in Hlt; lia))
      as (f' & E & C & O & _).
    rewrite E. destruct f' as [c o]. cbn [contents offset] in *.
    subst c o. reflexivity.
Qed.

(** The string "hi" followed by a zero byte, which is left unread. *)
Lemma C7_witness :
  exists s,
    readLithSTRING (mkFile [x02; x00; x68; x69; x00] 0) =
      (s, mkFile [x02; x00; x68; x69; x00] 4, [FileRead 2 2; FileRead 2 2])
    /\ list_byte_of_string s = [x68; x69].
Proof.
  destruct (C7_length_prefixed_string (mkFile [x02; x00; x68; x69; x00] 0)
              x02 x00 [x68; x69; x00])
    as (_ & Hwhole & _ & _).
  - simpl. lia.
  - reflexivity.
  - destruct Hwhole as (s & E & L).
    + vm_compute. lia.
    + exists s. split; [rewrite E; reflexivity | exact L].
Defined.

(** C8 as stated fails on the size: after the header of the example file the
    offset is 60, not 36, and bytes 36 to 59 have gone into [Future]. *)
Lemma C8_counterexample :
  offset (file_after (parse_world_header (os.Open example_file))) = 60
  /\ offset (file_after (parse_world_header (os.Open example_file))) <> 36
  /\ HEADER.Future (result (parse_world_header (os.Open example_file))) =
       [10; 11; 12; 13; 14; 15]
  /\ firstn 24 (skipn 36 example_file) =
       [x0a; x00; x00; x00;   x0b; x00; x00; x00;   x0c; x00; x00; x00;
        x0d; x00; x00; x00;   x0e; x00; x00; x00;   x0f; x00; x00; x00].
Proof.
  split; [reflexivity|]. split; [vm_compute; discriminate|].
  split; reflexivity.
Qed.

(** C8, as the code has it. On a file that holds a whole header, decoding
    from the start reads fifteen little-endian [uint32] values in the order
    version, objectDataPos, blindObjectDataPos, lightgridPos,
    collisionDataPos, particleBlockerDataPos, renderDataPos, packerType,
    packerVersion and six reserved ones; the header occupies 60 bytes. *)
Theorem C8_header_is_fifteen_uint32 (hdr rest : list byte) :
  length hdr = 60%nat ->
  parse_world_header (os.Open (hdr ++ rest)) =
    (header_of_bytes hdr,
     mkFile (hdr ++ rest) 60,
     repeat (FileRead 4 4) 15 ++ [Println [a_HEADER (header_of_bytes hdr)]])
  /\ remaining (mkFile (hdr ++ rest) 60) = rest
  /\ forall k,
       u32_at k hdr =
         byte_val (nth k hdr x00)
         + 256 * byte_val (nth (k + 1) hdr x00)
         + 65536 * byte_val (nth (k + 2) hdr x00)
         + 16777216 * byte_val (nth (k + 3) hdr x00).
Proof.
  intros Hlen. split; [apply parse_world_header_whole; exact Hlen|]. split.
  - unfold remaining. cbn [contents offset].
    change (Z.to_nat 60) with 60%nat. rewrite <- Hlen.
    rewrite skipn_app, skipn_all, Nat.sub_diag. reflexivity.
  - intros k. unfold u32_at. rewrite Uint32_sum, !nth_skipn.
    rewrite Nat.add_0_r. reflexivity.
Qed.

(** The header of the example file. *)
Lemma C8_witness :
  parse_world_header (os.Open example_file) =
    (HEADER.mk 1 60 87 91 91 95 99 0 0 [10; 11; 12; 13; 14; 15],
     mkFile example_file 60,
     repeat (FileRead 4 4) 15 ++
     [Println [a_HEADER
                 (HEADER.mk 1 60 87 91 91 95 99 0 0 [10; 11; 12; 13; 14; 15])]]).
Proof.
  destruct (C8_header_is_fifteen_uint32 example_header
              (skipn 60 example_file)) as (E & _ & _).
  - reflexivity.
  - exact E.
Defined.



(** C10. After a run, [world] is the zero value except for the object count
    and list and the three [uint32] prefixes. The seek to the light grid
    offset is the third seek and is followed at once by the seek to the
    collision offset, and the seek to the render data offset is the last
    file operation: nothing is read in those two sections. *)
Theorem C10_only_objects_and_prefixes_populated (bs : list byte) :
  exists h w,
    result (run_main bs) = Return h w
    /\ w = WORLD.mk 0 EmptyString VEC3.zero VEC3.zero VEC3.zero WORLDTREE.zero
             (WORLD.WorldObjectsLen w) (WORLD.WorldObjects w)
             (WORLD.BlindObjectDataSize w) []
             LIGHTGRID.zero
             (WORLD.PhysicsDataLen w) [] 0
             (WORLD.ParticleBlockerDataLen w) [] 0
             RENDERDATA.zero
    /\ (exists before after,
          file_ops (events (run_main bs)) =
            before ++
            [FileSeek (HEADER.LightgridPos h);
             FileSeek (HEADER.CollisionDataPos h)] ++ after
          /\ length (seeks before) = 2%nat)
    /\ (exists before,
          file_ops (events (run_main bs)) =
            before ++ [FileSeek (HEADER.RenderDataPos h)]
          /\ length (seeks before) = 5%nat).
Proof.
  pose proof (main_dispatch bs) as E. cbv zeta in E.
  pose proof (main_file_ops bs) as Ops. cbv zeta in Ops.
  set (h := result (parse_world_header (os.Open bs))) in *.
  destruct (sequential_parse_world_header (os.Open bs)) as (_ & _ & S0).
  destruct (sequential_parse_world_objects WORLD.zero
              (mkFile bs (HEADER.ObjectDataPos h))) as (_ & _ & S1).
  destruct (sequential_parse_prefix 0
              (mkFile bs (HEADER.BlindObjectDataPos h))) as (_ & _ & S2).
  destruct (sequential_parse_prefix 0
              (mkFile bs (HEADER.CollisionDataPos h))) as (_ & _ & S3).
  destruct (sequential_parse_prefix 0
              (mkFile bs (HEADER.ParticleBlockerDataPos h))) as (_ & _ & S4).
  pose proof (parse_world_objects_frame (mkFile bs (HEADER.ObjectDataPos h)))
    as Hfr. cbv zeta in Hfr.
  rewrite Ops. rewrite E. clear E Ops.
  do 2 eexists. split; [reflexivity|].
  split; [|split].
  - rewrite Hfr. reflexivity.
  - eexists (file_ops (events (parse_world_header (os.Open bs))) ++
             FileSeek (HEADER.ObjectDataPos h) :: file_ops (events _) ++
             FileSeek (HEADER.BlindObjectDataPos h) :: file_ops (events _)).
    eexists. split.
    + app_normal. reflexivity.
    + repeat first [rewrite seeks_app | rewrite seeks_cons_seek].
      rewrite !seeks_file_ops, S0, S1, S2. reflexivity.
  - eexists (file_ops (events (parse_world_header (os.Open bs))) ++
             FileSeek (HEADER.ObjectDataPos h) :: file_ops (events _) ++
             FileSeek (HEADER.BlindObjectDataPos h) :: file_ops (events _) ++
             FileSeek (HEADER.LightgridPos h) ::
             FileSeek (HEADER.CollisionDataPos h) :: file_ops (events _) ++
             FileSeek (HEADER.ParticleBlockerDataPos h) ::
             file_ops (events _)).
    split.
    + app_normal. reflexivity.
    + repeat first [rewrite seeks_app | rewrite seeks_cons_seek].
      rewrite !seeks_file_ops, S0, S1, S2, S3, S4. reflexivity.
Qed.

(** * Further properties *)

(** ** The header of a short file *)

Lemma parse_world_header_any_file (bs : list byte) :
  result (parse_world_header (os.Open bs)) = header_of_file bs
  /\ file_after (parse_world_header (os.Open bs)) =
       mkFile bs (Z.of_nat (Nat.min 60 (length bs))).
Proof.
  do 60 (destruct bs as [|? bs]; [split; reflexivity|]).
  split; reflexivity.
Qed.

(** X1. Whatever the length of the file, the header block decodes field
    number [k] from bytes [4k] to [4k+3] when the file holds all four and
    leaves it zero otherwise (a field cut in the middle is zero, like the
    ones after it); it leaves the offset at the end of the header or of the
    file, whichever comes first, so that only the first sixty bytes of a
    file matter to its header. *)
Theorem X1_header_of_any_file (bs : list byte) :
  result (parse_world_header (os.Open bs)) = header_of_file bs
  /\ file_after (parse_world_header (os.Open bs)) =
       mkFile bs (Z.of_nat (Nat.min 60 (length bs)))
  /\ result (parse_world_header (os.Open (firstn 60 bs))) =
       result (parse_world_header (os.Open bs)).
Proof.
  destruct (parse_world_header_any_file bs) as [Hr Hf].
  split; [exact Hr|]. split; [exact Hf|].
  rewrite Hr. clear Hr Hf.
  do 60 (destruct bs as [|? bs]; [reflexivity|]).
  reflexivity.
Qed.

(** ** Whole records, one after the other *)

(** When [step] decodes one whole record and stops right after it, an append
    loop over as many turns as there are records decodes them all. *)
Lemma successive_whole {A R} (step : M A) (layout : R -> list byte)
      (whole : R -> Prop) (value : R -> A) :
  (forall r f rest,
     whole r -> 0 <= offset f -> remaining f = layout r ++ rest ->
     exists f' evs,
       step f = (value r, f', evs)
       /\ contents f' = contents f
       /\ offset f' = offset f + Z.of_nat (length (layout r))
       /\ remaining f' = rest) ->
  forall rs f rest,
    Forall whole rs -> 0 <= offset f ->
    remaining f = flat_map layout rs ++ rest ->
    exists f' evs,
      successive (length rs) step f = (map value rs, f', evs)
      /\ contents f' = contents f
      /\ offset f' = offset f + Z.of_nat (length (flat_map layout rs))
      /\ remaining f' = rest.
Proof.
  intros Hstep. induction rs as [|r rs IH]; intros f rest Hall Hoff Hrem.
  - exists f, []. cbn [flat_map length Z.of_nat].
    rewrite Z.add_0_r. auto.
  - inversion Hall as [|? ? Hr Hrs]; subst.
    cbn [flat_map] in Hrem. rewrite <- app_assoc in Hrem.
    destruct (Hstep r f _ Hr Hoff Hrem) as (f1 & l1 & E1 & C1 & O1 & R1).
    destruct (IH f1 rest Hrs ltac:(lia) R1) as (f2 & l2 & E2 & C2 & O2 & R2).
    cbn [length successive map]. unfold bind. rewrite E1, E2. cbn [ret].
    do 2 eexists. split; [reflexivity|].
    repeat split; [congruence | | assumption].
    cbn [flat_map]. rewrite length_app. lia.
Qed.

Lemma parse_property_whole (r : property_bytes) (f : File) (rest : list byte) :
  property_whole r -> 0 <= offset f ->
  remaining f = property_layout r ++ rest ->
  exists f' evs,
    parse_property f = (property_value r, f', evs)
    /\ contents f' = contents f
    /\ offset f' = offset f + Z.of_nat (length (property_layout r))
    /\ remaining f' = rest.
Proof.
  intros (Hname & Hflags & Hsize & Hok) Hoff Hrem.
  unfold property_layout in *.
  repeat rewrite <- app_assoc in Hrem.
  destruct (parse_property_record f _ _ _ _ _ _ _ rest
              Hoff Hrem Hname Hflags Hsize Hok)
    as (f' & evs & E & C & O & R).
  exists f', evs. repeat split; try assumption.
  rewrite O. rewrite !length_app. cbn [length]. rewrite Hflags, Hsize. lia.
Qed.

Lemma parse_world_object_whole (o : object_bytes) (f : File)
      (rest : list byte) :
  object_whole o -> 0 <= offset f ->
  remaining f = object_layout o ++ rest ->
  exists f' evs,
    parse_world_object f = (object_value o, f', evs)
    /\ contents f' = contents f
    /\ offset f' = offset f + Z.of_nat (length (object_layout o))
    /\ remaining f' = rest.
Proof.
  intros (Hsize & Htype & Hcount & Hn & Hprops) Hoff Hrem.
  unfold object_layout in *. repeat rewrite <- app_assoc in Hrem.
  rewrite parse_world_object_eq.
  destruct (Read_enough binary.t_uint16 0 f (ob_size o) _ Hoff Hrem Hsize)
    as (f1 & E1 & C1 & O1 & R1).
  rewrite E1. cbn [file_after result events fst snd].
  cbn [app] in R1.
  destruct (readLithSTRING_enough f1 _ _ _ _ ltac:(lia) R1 Htype)
    as (f2 & E2 & C2 & O2 & R2).
  rewrite E2. cbn [file_after result events fst snd].
  destruct (Read_enough binary.t_uint32 0 f2 (ob_count o) _ ltac:(lia) R2
              Hcount)
    as (f3 & E3 & C3 & O3 & R3).
  rewrite E3. cbn [file_after result events fst snd binary.value
                   binary.t_uint16 binary.t_uint32].
  rewrite <- Hn, Nat2Z.id.
  destruct (successive_whole parse_property property_layout property_whole
              property_value parse_property_whole (ob_properties o) f3 rest
              Hprops ltac:(lia) R3)
    as (f4 & l4 & E4 & C4 & O4 & R4).
  rewrite E4. cbn [file_after result events fst snd].
  unfold object_value. rewrite <- Hn.
  do 2 eexists. split; [reflexivity|].
  repeat split; [congruence | | assumption].
  cbn [binary.dataSize binary.t_uint16 binary.t_uint32] in *.
  rewrite !length_app. cbn [length]. rewrite Hsize, Hcount. lia.
Qed.

(** X2. An object whose bytes are all there decodes to its size, type and
    count and to the list of its properties, each decoded from where the one
    before ended, a property whose tag has no case taking no payload and
    the members of a Vec3, Color or Quaternion stored as [stored_member]
    says; the offset is left right after the last property. *)
Theorem X2_whole_object (o : object_bytes) (f : File) (rest : list byte) :
  object_whole o ->
  0 <= offset f ->
  remaining f = object_layout o ++ rest ->
  exists f' evs,
    parse_world_object f = (object_value o, f', evs)
    /\ offset f' = offset f + Z.of_nat (length (object_layout o))
    /\ remaining f' = rest.
Proof.
  intros Hw Hoff Hrem.
  destruct (parse_world_object_whole o f rest Hw Hoff Hrem)
    as (f' & evs & E & _ & O & R).
  exists f', evs. auto.
Qed.

(** The object of the example file, followed by the blind-object prefix. *)
Lemma X2_witness :
  exists f' evs,
    parse_world_object (mkFile example_file 64) =
      (WORLDOBJECT.mk 9 "A" 1
         [PROPERTY.mk "n" 3 5 9 EmptyString VEC3.zero COLOR.zero 1065353216
            false 0 QUATERNION.zero []],
       f', evs)
    /\ offset f' = 87
    /\ remaining f' =
         [x02; x00; x00; x00;   x03; x00; x00; x00;   x04; x00; x00; x00].
Proof.
  destruct (X2_whole_object example_object_bytes (mkFile example_file 64)
              [x02; x00; x00; x00;   x03; x00; x00; x00;   x04; x00; x00; x00])
    as (f' & evs & E & O & R).
  - unfold object_whole. repeat split; try reflexivity.
    repeat constructor; reflexivity.
  - simpl. lia.
  - reflexivity.
  - exists f', evs. split; [exact E|]. split; [exact O|exact R].
Defined.

(** X3. When the bytes at [ObjectDataPos] are a count followed by that many
    whole objects, the run returns exactly these objects, in order, whatever
    the rest of the file holds. *)
Theorem X3_whole_object_section (bs count rest : list byte)
        (objs : list object_bytes) :
  let h := result (parse_world_header (os.Open bs)) in
  skipn (Z.to_nat (HEADER.ObjectDataPos h)) bs =
    count ++ flat_map object_layout objs ++ rest ->
  length count = 4%nat ->
  Z.of_nat (length objs) = binary.LittleEndian.Uint32 count ->
  Forall object_whole objs ->
  exists w,
    result (run_main bs) = Return h w
    /\ WORLD.WorldObjectsLen w = Z.of_nat (length objs)
    /\ WORLD.WorldObjects w = map object_value objs.
Proof.
  intros h Hrem Hcount Hn Hobjs.
  pose proof (main_dispatch bs) as E. cbv zeta in E. fold h in E.
  pose proof (returns_parse_world_header (os.Open bs)) as Hwf. fold h in Hwf.
  assert (Hoff : 0 <= HEADER.ObjectDataPos h)
    by (unfold HEADER_wf, is_uint32 in Hwf; lia).
  rewrite E. clear E. eexists. split; [reflexivity|].
  rewrite parse_world_objects_eq.
  destruct (Read_enough binary.t_uint32 0
              (mkFile bs (HEADER.ObjectDataPos h)) count _ Hoff Hrem Hcount)
    as (f1 & E1 & C1 & O1 & R1).
  rewrite E1. cbn [file_after result events fst snd binary.value
                   binary.t_uint32].
  rewrite <- Hn, Nat2Z.id.
  destruct (successive_whole parse_world_object object_layout object_whole
              object_value parse_world_object_whole objs f1 rest
              Hobjs ltac:(cbn [offset] in O1; lia) R1)
    as (f2 & l2 & E2 & _).
  rewrite E2. split; reflexivity.
Qed.

(** The example file: one object at 60. *)
Lemma X3_witness :
  exists w,
    result (run_main example_file) =
      Return (HEADER.mk 1 60 87 91 91 95 99 0 0 [10; 11; 12; 13; 14; 15]) w
    /\ WORLD.WorldObjectsLen w = 1
    /\ WORLD.WorldObjects w =
         [WORLDOBJECT.mk 9 "A" 1
            [PROPERTY.mk "n" 3 5 9 EmptyString VEC3.zero COLOR.zero
               1065353216 false 0 QUATERNION.zero []]].
Proof.
  destruct (X3_whole_object_section example_file [x01; x00; x00; x00]
              [x02; x00; x00; x00;   x03; x00; x00; x00;   x04; x00; x00; x00]
              [example_object_bytes])
    as (w & E & L & O).
  - reflexivity.
  - reflexivity.
  - reflexivity.
  - repeat constructor; reflexivity.
  - exists w. split; [exact E|]. split; [exact L|exact O].
Defined.

(** ** The prefixes, present or not *)

Lemma parse_prefix_result (cur : uint32) (f : File) :
  result (parse_prefix cur f) = fst (result (binary.Read binary.t_uint32 cur f)).
Proof.
  unfold parse_prefix, bind, result.
  destruct (binary.Read binary.t_uint32 cur f) as [[[v e] f1] l1].
  reflexivity.
Qed.

(** X4. After a run, the object count and the blind-object, physics and
    particle-blocker prefixes are each the little-endian [uint32] found at
    the header offset of their section when the file holds its four bytes,
    and zero when it does not (an offset at or beyond the end, or a prefix
    cut short). Sections that share an offset therefore get the same
    prefix. *)
Theorem X4_prefixes_at_their_offsets (bs : list byte) :
  exists h w,
    result (run_main bs) = Return h w
    /\ WORLD.WorldObjectsLen w = prefix_at bs (HEADER.ObjectDataPos h)
    /\ WORLD.BlindObjectDataSize w = prefix_at bs (HEADER.BlindObjectDataPos h)
    /\ WORLD.PhysicsDataLen w = prefix_at bs (HEADER.CollisionDataPos h)
    /\ WORLD.ParticleBlockerDataLen w =
         prefix_at bs (HEADER.ParticleBlockerDataPos h).
Proof.
  pose proof (main_dispatch bs) as E. cbv zeta in E.
  pose proof (returns_parse_world_header (os.Open bs)) as Hwf.
  set (h := result (parse_world_header (os.Open bs))) in *.
  unfold HEADER_wf, is_uint32 in Hwf.
  rewrite E. clear E. do 2 eexists. split; [reflexivity|].
  cbn [WORLD.WorldObjectsLen WORLD.BlindObjectDataSize WORLD.PhysicsDataLen
       WORLD.ParticleBlockerDataLen WORLD.set_ParticleBlockerDataLen
       WORLD.set_PhysicsDataLen WORLD.set_BlindObjectDataSize].
  rewrite !parse_prefix_result, !Read_uint32_prefix by lia.
  rewrite parse_world_objects_eq. cbn [result fst WORLD.WorldObjectsLen
    WORLD.set_WorldObjects WORLD.set_WorldObjectsLen].
  fold (result (binary.Read binary.t_uint32 0
                  (mkFile bs (HEADER.ObjectDataPos h)))).
  rewrite Read_uint32_prefix by lia.
  repeat split.
Qed.

(** ** Decoding at the end of the file *)

Lemma parse_property_eof (f : File) :
  remaining f = [] ->
  exists evs, parse_property f = (PROPERTY.zero, f, evs).
Proof.
  intros Hrem. unfold parse_property, bind.
  rewrite (readLithSTRING_eof f Hrem).
  destruct (Read_eof binary.t_uint8 0 f Hrem ltac:(cbn; lia)) as (e2 & E2).
  change (PROPERTY.DataTypeFlag (PROPERTY.set_Name _ PROPERTY.zero)) with 0.
  rewrite E2.
  destruct (Read_eof binary.t_uint32 0 f Hrem ltac:(cbn; lia)) as (e3 & E3).
  change (PROPERTY.PropertyFlags
            (PROPERTY.set_DataTypeFlag _ (PROPERTY.set_Name _ PROPERTY.zero)))
    with 0.
  rewrite E3.
  destruct (Read_eof binary.t_uint16 0 f Hrem ltac:(cbn; lia)) as (e4 & E4).
  change (PROPERTY.DataSize
            (PROPERTY.set_PropertyFlags _
               (PROPERTY.set_DataTypeFlag _
                  (PROPERTY.set_Name _ PROPERTY.zero))))
    with 0.
  rewrite E4.
  match goal with
  | |- context [parse_payload ?p f] =>
      destruct (parse_payload_eof p f Hrem eq_refl) as (l5 & E5); rewrite E5
  end.
  cbn [fmt.Println ret]. eexists. reflexivity.
Qed.

Lemma parse_world_object_eof (f : File) :
  remaining f = [] ->
  exists evs, parse_world_object f = (WORLDOBJECT.zero, f, evs).
Proof.
  intros Hrem. rewrite parse_world_object_eq.
  destruct (Read_eof binary.t_uint16 0 f Hrem ltac:(cbn; lia)) as (e1 & E1).
  rewrite E1. cbn [file_after result events fst snd].
  rewrite (readLithSTRING_eof f Hrem). cbn [file_after result events fst snd].
  destruct (Read_eof binary.t_uint32 0 f Hrem ltac:(cbn; lia)) as (e3 & E3).
  rewrite E3. cbn [file_after result events fst snd Z.to_nat successive ret].
  eexists. reflexivity.
Qed.

Lemma successive_eof {A} (step : M A) (zero : A) (n : nat) (f : File) :
  (exists evs, step f = (zero, f, evs)) ->
  exists evs, successive n step f = (repeat zero n, f, evs).
Proof.
  intros (l & E). induction n as [|n (l' & IH)].
  - eexists. reflexivity.
  - cbn [successive]. unfold bind. rewrite E, IH. eexists. reflexivity.
Qed.

(** X5. The object count is not checked against what the file holds: when
    the file ends with the count (or before it), the run returns as many
    objects as the count says, every one the zero object. *)
Theorem X5_count_beyond_the_file (bs : list byte) :
  let h := result (parse_world_header (os.Open bs)) in
  Z.of_nat (length bs) <= HEADER.ObjectDataPos h + 4 ->
  exists w,
    result (run_main bs) = Return h w
    /\ WORLD.WorldObjectsLen w = prefix_at bs (HEADER.ObjectDataPos h)
    /\ WORLD.WorldObjects w =
         repeat WORLDOBJECT.zero (Z.to_nat (WORLD.WorldObjectsLen w)).
Proof.
  intros h Hend.
  pose proof (main_dispatch bs) as E. cbv zeta in E. fold h in E.
  pose proof (returns_parse_world_header (os.Open bs)) as Hwf. fold h in Hwf.
  assert (Hoff : 0 <= HEADER.ObjectDataPos h)
    by (unfold HEADER_wf, is_uint32 in Hwf; lia).
  rewrite E. clear E. eexists. split; [reflexivity|].
  rewrite parse_world_objects_eq.
  cbn [result fst WORLD.WorldObjectsLen WORLD.WorldObjects
       WORLD.set_ParticleBlockerDataLen WORLD.set_PhysicsDataLen
       WORLD.set_BlindObjectDataSize WORLD.set_WorldObjects
       WORLD.set_WorldObjectsLen].
  split.
  { fold (result (binary.Read binary.t_uint32 0
                    (mkFile bs (HEADER.ObjectDataPos h)))).
    apply Read_uint32_prefix. exact Hoff. }
  assert (Hrem : remaining
            (file_after (binary.Read binary.t_uint32 0
                           (mkFile bs (HEADER.ObjectDataPos h)))) = []).
  { destruct (Z.leb_spec (HEADER.ObjectDataPos h + 4) (Z.of_nat (length bs)))
      as [Hle|Hgt].
    - destruct (Read_enough binary.t_uint32 0
                  (mkFile bs (HEADER.ObjectDataPos h))
                  (skipn (Z.to_nat (HEADER.ObjectDataPos h)) bs) [])
        as (f1 & E1 & _ & _ & R1).
      + exact Hoff.
      + rewrite app_nil_r. reflexivity.
      + rewrite length_skipn. cbn [binary.dataSize binary.t_uint32]. lia.
      + rewrite E1. exact R1.
    - destruct (Read_short binary.t_uint32 0
                  (mkFile bs (HEADER.ObjectDataPos h))) as (e & E1).
      + unfold remaining.
        cbn [contents offset binary.dataSize binary.t_uint32].
        rewrite length_skipn. lia.
      + rewrite E1. unfold remaining, file_after.
        cbn [fst snd contents offset]. apply skipn_all2.
        rewrite length_skipn. lia. }
  destruct (successive_eof parse_world_object WORLDOBJECT.zero
              (Z.to_nat (fst (fst (fst (binary.Read binary.t_uint32 0
                 (mkFile bs (HEADER.ObjectDataPos h)))))))
              _ (parse_world_object_eof _ Hrem)) as (l & El).
  unfold result at 1. unfold result at 1. rewrite El. reflexivity.
Qed.

(** The header of the example followed by the count 3 alone: three zero
    objects. *)
Lemma X5_witness :
  exists w,
    result (run_main count_only_file) =
      Return (HEADER.mk 1 60 87 91 91 95 99 0 0 [10; 11; 12; 13; 14; 15]) w
    /\ WORLD.WorldObjectsLen w = 3
    /\ WORLD.WorldObjects w =
         [WORLDOBJECT.zero; WORLDOBJECT.zero; WORLDOBJECT.zero].
Proof.
  destruct (X5_count_beyond_the_file count_only_file) as (w & E & L & O).
  - vm_compute. discriminate.
  - exists w. split; [exact E|]. split; [exact L|].
    rewrite O, L. reflexivity.
Defined.

(** ** Decoding looks at the bytes from the offset on, and at nothing else *)

Lemma remaining_advance (c : list byte) (o : Z) (k : nat) :
  0 <= o ->
  remaining (mkFile c (o + Z.of_nat k)) = skipn k (remaining (mkFile c o)).
Proof.
  intros Ho. unfold remaining. cbn [contents offset].
  rewrite Z2Nat.inj_add, Nat2Z.id by lia.
  rewrite skipn_skipn. f_equal. lia.
Qed.

Lemma relocatable_ret {A} (a : A) : relocatable (ret a).
Proof.
  intros f1 f2 H1 H2 Hrem. cbn. repeat split; auto. lia.
Qed.

Lemma relocatable_bind {A B} (m : M A) (k : A -> M B) :
  relocatable m -> (forall a, relocatable (k a)) -> relocatable (bind m k).
Proof.
  intros Hm Hk f1 f2 H1 H2 Hrem. unfold bind.
  specialize (Hm f1 f2 H1 H2 Hrem).
  unfold result, events, file_after in *.
  destruct (m f1) as [[a1 g1] l1], (m f2) as [[a2 g2] l2].
  cbn [fst snd] in *.
  destruct Hm as (Ea & El & Er & P1 & P2 & Eo). subst a2 l2.
  specialize (Hk a1 g1 g2 P1 P2 Er).
  unfold result, events, file_after in Hk.
  destruct (k a1 g1) as [[b1 g1'] l1'], (k a1 g2) as [[b2 g2'] l2'].
  cbn [fst snd] in *.
  destruct Hk as (Eb & El' & Er' & P1' & P2' & Eo').
  repeat split; try assumption; [congruence | lia].
Qed.

Lemma relocatable_ReadFull (n : nat) : relocatable (io.ReadFull n).
Proof.
  intros [c1 o1] [c2 o2] H1 H2 Hrem. cbn [offset] in H1, H2.
  unfold io.ReadFull, result, events, file_after.
  cbn [fst snd contents offset].
  change (skipn (Z.to_nat o1) c1) with (remaining (mkFile c1 o1)).
  change (skipn (Z.to_nat o2) c2) with (remaining (mkFile c2 o2)).
  rewrite Hrem.
  repeat split; try lia.
  rewrite !remaining_advance by assumption. rewrite Hrem. reflexivity.
Qed.

Lemma relocatable_Println (a : list any) : relocatable (fmt.Println a).
Proof.
  intros f1 f2 H1 H2 Hrem. cbn. repeat split; auto. lia.
Qed.

Lemma relocatable_Read {A} (ty : binary.layout A) (cur : A) :
  relocatable (binary.Read ty cur).
Proof.
  unfold binary.Read. apply relocatable_bind; [apply relocatable_ReadFull|].
  intros [bs [e|]]; apply relocatable_ret.
Qed.

Lemma relocatable_for_range {St} (body : St -> M St) (n : nat) :
  (forall s, relocatable (body s)) ->
  forall s, relocatable (for_range n body s).
Proof.
  intros Hb. induction n as [|n IH]; intros s; simpl.
  - apply relocatable_ret.
  - apply relocatable_bind; auto.
Qed.

Create HintDb reloc.
#[local] Hint Resolve relocatable_ret relocatable_ReadFull
  relocatable_Println relocatable_Read : reloc.

Ltac reloc_steps :=
  repeat first
    [ apply relocatable_bind; [solve [auto with reloc] | intros ?]
    | match goal with
      | x : (_ * _)%type |- _ => destruct x
      end
    | solve [auto with reloc] ].

Lemma relocatable_readLithSTRING : relocatable readLithSTRING.
Proof. unfold readLithSTRING. reloc_steps. Qed.
#[local] Hint Resolve relocatable_readLithSTRING : reloc.

Lemma relocatable_parse_payload (p : PROPERTY.t) :
  relocatable (parse_payload p).
Proof.
  unfold parse_payload. tag_cases (PROPERTY.DataTypeFlag p); reloc_steps.
Qed.
#[local] Hint Resolve relocatable_parse_payload : reloc.

Lemma relocatable_parse_property : relocatable parse_property.
Proof. unfold parse_property. reloc_steps. Qed.
#[local] Hint Resolve relocatable_parse_property : reloc.

Lemma relocatable_parse_world_object : relocatable parse_world_object.
Proof.
  unfold parse_world_object. reloc_steps.
  apply relocatable_for_range. intros s. reloc_steps.
Qed.
#[local] Hint Resolve relocatable_parse_world_object : reloc.

Lemma relocatable_parse_world_objects (w : WORLD.t) :
  relocatable (parse_world_objects w).
Proof.
  unfold parse_world_objects. reloc_steps.
  apply relocatable_for_range. intros s. reloc_steps.
Qed.

(** X6. The object section is decoded from its bytes alone: two files whose
    bytes from their own [ObjectDataPos] on are the same give the same
    object count and the same objects and print the same lines for them,
    wherever the section lies and whatever comes before it. *)
Theorem X6_object_section_can_be_moved (bs1 bs2 : list byte) :
  let h1 := result (parse_world_header (os.Open bs1)) in
  let h2 := result (parse_world_header (os.Open bs2)) in
  skipn (Z.to_nat (HEADER.ObjectDataPos h1)) bs1 =
  skipn (Z.to_nat (HEADER.ObjectDataPos h2)) bs2 ->
  exists w1 w2,
    result (run_main bs1) = Return h1 w1
    /\ result (run_main bs2) = Return h2 w2
    /\ WORLD.WorldObjectsLen w1 = WORLD.WorldObjectsLen w2
    /\ WORLD.WorldObjects w1 = WORLD.WorldObjects w2
    /\ flat_map object_lines (WORLD.WorldObjects w1) =
       flat_map object_lines (WORLD.WorldObjects w2).
Proof.
  intros h1 h2 Hrem.
  pose proof (main_dispatch bs1) as E1. cbv zeta in E1. fold h1 in E1.
  pose proof (main_dispatch bs2) as E2. cbv zeta in E2. fold h2 in E2.
  pose proof (returns_parse_world_header (os.Open bs1)) as Hwf1.
  pose proof (returns_parse_world_header (os.Open bs2)) as Hwf2.
  fold h1 in Hwf1. fold h2 in Hwf2.
  unfold HEADER_wf, is_uint32 in Hwf1, Hwf2.
  destruct (relocatable_parse_world_objects WORLD.zero
              (mkFile bs1 (HEADER.ObjectDataPos h1))
              (mkFile bs2 (HEADER.ObjectDataPos h2)))
    as (Er & _); [cbn; lia | cbn; lia | exact Hrem |].
  rewrite E1, E2. do 2 eexists. split; [reflexivity|]. split; [reflexivity|].
  cbn [WORLD.WorldObjectsLen WORLD.WorldObjects
       WORLD.set_ParticleBlockerDataLen WORLD.set_PhysicsDataLen
       WORLD.set_BlindObjectDataSize].
  rewrite Er. repeat split.
Qed.

(** The example file and the same file with its sections four bytes
    further. *)
Lemma X6_witness :
  exists w1 w2,
    result (run_main example_file) =
      Return (HEADER.mk 1 60 87 91 91 95 99 0 0 [10; 11; 12; 13; 14; 15]) w1
    /\ result (run_main moved_example_file) =
         Return (HEADER.mk 1 64 91 95 95 99 103 0 0 [10; 11; 12; 13; 14; 15])
                w2
    /\ WORLD.WorldObjects w1 = WORLD.WorldObjects w2.
Proof.
  destruct (X6_object_section_can_be_moved example_file moved_example_file)
    as (w1 & w2 & E1 & E2 & _ & O & _).
  - reflexivity.
  - exists w1, w2. split; [exact E1|]. split; [exact E2|exact O].
Defined.

(** ** The first version of the program *)

Lemma header_only_main_eq (f : File) :
  header_only_main f =
    (result (parse_world_header f), file_after (parse_world_header f),
     events (parse_world_header f)).
Proof.
  unfold header_only_main, bind, result, file_after, events.
  destruct (parse_world_header f) as [[h f1] l1]. cbn [ret fst snd].
  rewrite app_nil_r. reflexivity.
Qed.

(** X8. The first version of the program (src/lithdat.go) asks for fifteen
    reads of four bytes, never seeks, and prints one line, the header; the
    later version starts with the very same events, decodes the same header
    and goes on with the seek to the object section. *)
Theorem X8_first_version_is_a_prefix (bs : list byte) :
  let r := header_only_main (os.Open bs) in
  requests (events r) = repeat 4%nat 15
  /\ seeks (events r) = []
  /\ stdout (events r) = [Println [a_HEADER (result r)]]
  /\ exists w rest,
       result (run_main bs) = Return (result r) w
       /\ events (run_main bs) =
            events r ++ FileSeek (HEADER.ObjectDataPos (result r)) :: rest.
Proof.
  cbv zeta. rewrite header_only_main_eq. cbn [result events fst snd].
  split; [apply asks_parse_world_header|].
  split; [apply sequential_parse_world_header|].
  split; [apply (prints_parse_world_header (os.Open bs))|].
  pose proof (main_dispatch bs) as E. cbv zeta in E. rewrite E.
  do 2 eexists. split; [reflexivity|].
  cbn [events snd app]. reflexivity.
Qed.

(** ** Decoded properties *)

Lemma returns_parse_payload (nm : string) (tag fl sz : Z) :
  0 <= tag < 256 -> is_uint32 fl -> is_uint16 sz ->
  returns
    (parse_payload
       (PROPERTY.mk nm tag fl sz EmptyString VEC3.zero COLOR.zero 0 false 0
          QUATERNION.zero []))
    (fun p => payload_matches_tag p /\ property_in_range p).
Proof.
  intros Ht Hf Hs. unfold parse_payload. cbn [PROPERTY.DataTypeFlag].
  assert (Hfinal : forall p,
            PROPERTY.DataTypeFlag p = tag ->
            PROPERTY.PropertyFlags p = fl ->
            PROPERTY.DataSize p = sz ->
            payload_matches_tag p ->
            payload_matches_tag p /\ property_in_range p).
  { intros p E1 E2 E3 Hm. split; [exact Hm|].
    unfold property_in_range. rewrite E1, E2, E3. auto. }
  tag_cases tag;
    first
      [ apply returns_ret; apply Hfinal; try reflexivity;
        unfold payload_matches_tag; cbn; repeat split; reflexivity
      | eapply returns_bind with (P := fun _ => True);
        [intros f; exact I|];
        intros v _; try destruct v as [v e];
        apply returns_ret; apply Hfinal; try reflexivity;
        unfold payload_matches_tag; cbn;
        repeat split; first [reflexivity | intros H; exfalso; apply H;
                                           reflexivity] ].
Qed.

Lemma returns_parse_property :
  returns parse_property
    (fun p => payload_matches_tag p /\ property_in_range p).
Proof.
  unfold parse_property.
  eapply returns_bind with (P := fun _ => True); [intros f; exact I|].
  intros nm _.
  eapply returns_bind;
    [apply (returns_Read binary.t_uint8 _ (fun v => 0 <= v < 256));
     [cbn; lia | intros bs; apply byte_val_range]|].
  intros [tag e1] Ht. cbn [fst] in Ht.
  eapply returns_bind; [apply returns_Read_uint32; exact is_uint32_0|].
  intros [fl e2] Hf. cbn [fst] in Hf.
  eapply returns_bind;
    [apply (returns_Read binary.t_uint16 _ is_uint16);
     [unfold is_uint16; cbn; lia | intros bs; apply Uint16_range]|].
  intros [sz e3] Hs. cbn [fst] in Hs.
  eapply returns_bind; [apply (returns_parse_payload nm tag fl sz Ht Hf Hs)|].
  intros p Hp.
  eapply returns_bind with (P := fun _ => True); [intros f; exact I|].
  intros _ _. apply returns_ret. exact Hp.
Qed.

(** X9. In every property of every object a run returns, whatever the
    file, only the payload field selected by the tag can differ from its
    zero value (none for a tag without a case), [Data] is empty, and tag,
    flags and declared size are within 8, 32 and 16 bits. *)
Theorem X9_payload_field_matches_tag (bs : list byte) :
  exists h w,
    result (run_main bs) = Return h w
    /\ Forall
         (fun o =>
            Forall (fun p => payload_matches_tag p /\ property_in_range p)
                   (WORLDOBJECT.Properties o))
         (WORLD.WorldObjects w).
Proof.
  pose proof (main_dispatch bs) as E. cbv zeta in E.
  set (h := result (parse_world_header (os.Open bs))) in *.
  rewrite E. clear E. do 2 eexists. split; [reflexivity|].
  rewrite parse_world_objects_eq.
  cbn [result fst WORLD.WorldObjects WORLD.set_ParticleBlockerDataLen
       WORLD.set_PhysicsDataLen WORLD.set_BlindObjectDataSize
       WORLD.set_WorldObjects].
  match goal with
  | |- Forall ?Q (result (successive ?n parse_world_object ?f)) =>
      refine (proj2 (returns_successive parse_world_object Q n _ f))
  end.
  intros f. rewrite parse_world_object_eq.
  cbn [result fst WORLDOBJECT.Properties].
  match goal with
  | |- Forall ?Q (result (successive ?n parse_property ?g)) =>
      exact (proj2 (returns_successive parse_property Q n
                      returns_parse_property g))
  end.
Qed.

(** ** Strings are as long as they announce *)

Lemma Read_bounds {A} (ty : binary.layout A) (cur : A) (f : File) :
  (offset f <= offset (file_after (binary.Read ty cur f))
   <= offset f + Z.of_nat (binary.dataSize ty cur))
  /\ (fst (result (binary.Read ty cur f)) = cur
      \/ exists bs,
           length bs = binary.dataSize ty cur
           /\ fst (result (binary.Read ty cur f)) = binary.value ty bs).
Proof.
  unfold binary.Read, bind, io.ReadFull, result, file_after.
  set (got := firstn (binary.dataSize ty cur)
                (skipn (Z.to_nat (offset f)) (contents f))).
  pose proof (firstn_le_length (binary.dataSize ty cur)
                (skipn (Z.to_nat (offset f)) (contents f))) as Hle.
  fold got in Hle.
  destruct (Nat.eqb_spec (length got) (binary.dataSize ty cur)) as [E|N].
  - cbn [fst snd offset ret]. split; [lia|]. right. exists got. auto.
  - destruct (length got =? 0)%nat; cbn [fst snd offset ret];
      (split; [lia | left; reflexivity]).
Qed.

(** X10. Whatever the file state, the text [readLithSTRING] returns has
    exactly as many bytes as the length it read (none when the length itself
    is missing), never more than 65535, and the offset moves forward by at
    most two bytes plus that length. *)
Theorem X10_string_length_is_announced (f : File) :
  let n := fst (result (binary.Read binary.t_uint16 0 f)) in
  let r := readLithSTRING f in
  0 <= n < 65536
  /\ length (list_byte_of_string (result r)) = Z.to_nat n
  /\ offset f <= offset (file_after r) <= offset f + 2 + n.
Proof.
  cbv zeta.
  pose proof (returns_Read binary.t_uint16 0 is_uint16
                ltac:(unfold is_uint16; lia) Uint16_range f) as Hn.
  pose proof (Read_bounds binary.t_uint16 0 f) as [Ho1 _].
  unfold readLithSTRING, bind.
  unfold result, file_after in *.
  destruct (binary.Read binary.t_uint16 0 f) as [[[n e1] f1] l1].
  cbn [fst snd binary.dataSize binary.t_uint16] in *.
  unfold is_uint16 in Hn. change (2 ^ 16) with 65536 in Hn.
  pose proof (Read_bounds binary.t_bytes (repeat x00 (Z.to_nat n)) f1)
    as [Ho2 Hv].
  unfold result, file_after in *.
  destruct (binary.Read binary.t_bytes (repeat x00 (Z.to_nat n)) f1)
    as [[[buf e2] f2] l2].
  cbn [fst snd ret binary.dataSize binary.t_bytes binary.value] in *.
  rewrite repeat_length in *.
  split; [exact Hn|]. split; [|lia].
  rewrite list_byte_of_string_of_list_byte.
  destruct Hv as [->|(bs & Hl & ->)];
    [apply repeat_length | exact Hl].
Qed.
